(** * nifty-pulse: butterfly pricing and strategy ranking

    A shallow embedding of [src/lib/butterflyCalculations.ts], the pure
    calculation module of the repository, and the properties of it that the
    specification states.

    Modelling choices.
    - A JavaScript [number] is an IEEE 754 binary64 value: Rocq's primitive
      [float].  Arithmetic and comparisons are the primitive operations, so
      rounding, the two zeros, the infinities and NaN behave as they do in
      the program ([NaN] compares false with everything).
    - A property of a feed object that the code reads as a number is a
      [JS.value]: [Undefined] (missing), [Null], or [Num x].  Feed values of
      other JavaScript types (numeric strings, booleans) are not modelled.
    - One record type, [Row], stands for the [any] objects that travel through
      the module: it has the raw feed fields and the grouped [call_*]/[put_*]
      fields, since the normalizer may hand its input through unchanged.
    - [Array.prototype.sort] is a stable insertion sort driven by the sign of
      the comparator's result.  For a consistent comparator every conforming
      implementation returns this list.
    - The [Map] of the normalizer is the list of its values in insertion
      order; a value carries its key in [strike_price].
    - The display string [strikeCombo] of a strategy is left out: it is the
      decimal printing of the field [strikes]. *)

From Stdlib Require Import Floats ZArith Uint63 List String Bool Lia.
From Stdlib Require Import Sorted Permutation.
Import ListNotations.

Open Scope float_scope.

(** ** JavaScript values and numbers *)

Module JS.

Inductive value : Set :=
| Undefined
| Null
| Num (x : float).

(** [v === undefined] *)
Definition is_undefined (v : value) : bool :=
  match v with Undefined => true | _ => false end.

(** [a ?? b]: the right operand when the left one is null or undefined. *)
Definition coalesce (a b : value) : value :=
  match a with Num _ => a | _ => b end.

(** [ToNumber] on the values of the model. *)
Definition toNumber (v : value) : float :=
  match v with Undefined => nan | Null => 0 | Num x => x end.

(** Truthiness of a number: everything but [+0], [-0] and [NaN]. *)
Definition truthy (x : float) : bool := negb (x =? 0) && negb (is_nan x).

Definition truthy_value (v : value) : bool :=
  match v with Num x => truthy x | _ => false end.

(** [v === x] and [v !== x] for a number [x]. *)
Definition strict_eq (v : value) (x : float) : bool :=
  match v with Num y => y =? x | _ => false end.

(** [v > 0], after [ToNumber]. *)
Definition gt_zero (v : value) : bool := 0 <? toNumber v.

(** SameValueZero on numbers, the key equality of [Map]. *)
Definition same_value_zero (x y : float) : bool :=
  (x =? y) || (is_nan x && is_nan y).

(** A small integer as a double (exact below 2^53). *)
Definition of_Z (n : Z) : float :=
  match n with
  | Z0 => 0
  | Zpos _ => of_uint63 (Uint63.of_Z n)
  | Zneg _ => - of_uint63 (Uint63.of_Z (Z.opp n))
  end.

(** [Math.round]: the integral number closest to [x], ties towards
    +infinity; NaN, the infinities, the zeros and integral values are
    returned unchanged, and a result of zero keeps the sign of [x]. *)
Definition Math_round (x : float) : float :=
  match Prim2SF x with
  | S754_finite s m e =>
      if (0 <=? e)%Z then x
      else
        let n := Z.shiftr (cond_Zopp s (Zpos m) + 2 ^ (- e - 1)) (- e) in
        if (n =? 0)%Z then (if s then neg_zero else 0) else of_Z n
  | _ => x
  end.

Definition Math_abs (x : float) : float := abs x.

(** [Number.isFinite] *)
Definition isFinite (x : float) : bool := is_finite x.

(** [Array.prototype.sort(cmp)]: [x] goes in front of the first element
    [y] of the sorted prefix with [cmp(x, y) < 0]. *)
Section Sort.
Context {A : Type} (cmp : A -> A -> float).

Fixpoint insert (x : A) (l : list A) : list A :=
  match l with
  | [] => [x]
  | y :: l' => if cmp x y <? 0 then x :: l else y :: insert x l'
  end.

Definition sort (l : list A) : list A :=
  fold_left (fun acc x => insert x acc) l [].
End Sort.

End JS.

Notation "a ?? b" := (JS.coalesce a b) (at level 46, left associativity).

(** ** Data model *)

Inductive OptionType : Set := CALL | PUT.

(** The nested quote object [CE] / [PE] of a row. *)
Module Leg.
Record t : Set := mk { bidprice : JS.value; askprice : JS.value; ltp : JS.value }.
End Leg.

(** [o.CE?.bidprice] and friends. *)
Definition opt_field (q : option Leg.t) (f : Leg.t -> JS.value) : JS.value :=
  match q with Some l => f l | None => JS.Undefined end.

Record Row : Set := mkRow {
  strike_price : JS.value;
  option_type : option string;
  symbol : option string;
  ltp : JS.value;
  open_interest : JS.value;
  oi : JS.value;
  bid_price : JS.value;
  bid : JS.value;
  ask_price : JS.value;
  ask : JS.value;
  call_ltp : JS.value;
  call_oi : JS.value;
  call_bid : JS.value;
  call_ask : JS.value;
  CE : option Leg.t;
  put_ltp : JS.value;
  put_oi : JS.value;
  put_bid : JS.value;
  put_ask : JS.value;
  PE : option Leg.t
}.

(** The object literal [{ strike_price: strike }]. *)
Definition new_entry (strike : float) : Row :=
  {| strike_price := JS.Num strike; option_type := None; symbol := None;
     ltp := JS.Undefined; open_interest := JS.Undefined; oi := JS.Undefined;
     bid_price := JS.Undefined; bid := JS.Undefined;
     ask_price := JS.Undefined; ask := JS.Undefined;
     call_ltp := JS.Undefined; call_oi := JS.Undefined;
     call_bid := JS.Undefined; call_ask := JS.Undefined; CE := None;
     put_ltp := JS.Undefined; put_oi := JS.Undefined;
     put_bid := JS.Undefined; put_ask := JS.Undefined; PE := None |}.

Inductive DetailedRecommendation : Set :=
| ENTRY | HOLD | EXIT | AVOID | SCALE | PROFIT_BOOKING | CHAIN_WARNING | VALUE_BREACH.

Inductive AlertType : Set :=
| good_entry | value_breach | profit_booking | scaling_opportunity | chain_warning.

Module ButterflyResult.
Record t : Set := mk { rate : float; firstLegPremium : float }.
End ButterflyResult.

Module GapCell.
Record t : Set := mk { rate : float; value : float }.
End GapCell.

Module ButterflyData.
(** [gaps] maps the key [gap<n>] to its cell; the key is kept as the number
    [n]. *)
Record t : Set := mk {
  strike : float;
  premium : float;
  bid : float;
  ask : float;
  isATM : bool;
  gaps : list (float * GapCell.t)
}.
End ButterflyData.

Module ButterflyStrategy.
Record t : Set := mk {
  type : OptionType;
  strikes : float * float * float;
  gap : float;
  firstLegPremium : float;
  butterflyRate : float;
  valuePercent : float;
  distanceFromATM : float;
  recommendation : DetailedRecommendation;
  isNearATM : bool;
  hasGoodGap : bool
}.
End ButterflyStrategy.

(** ** transformOptionDataForButterfly *)

(** [rawData.some(d => d.call_ltp !== undefined || d.put_ltp !== undefined)] *)
Definition already_transformed (rawData : list Row) : bool :=
  existsb (fun d => negb (JS.is_undefined (call_ltp d))
                    || negb (JS.is_undefined (put_ltp d))) rawData.

(** [d.strike_price !== -1] *)
Definition not_index_row (d : Row) : bool :=
  negb (JS.strict_eq (strike_price d) (-1)).

(** [item.option_type === 'CE' || item.symbol?.includes('CE')] *)
Definition includes (needle : string) (s : string) : bool :=
  match String.index 0 needle s with Some _ => true | None => false end.

Definition isCall (item : Row) : bool :=
  match option_type item with
  | Some t => String.eqb t "CE"
  | None => false
  end
  || match symbol item with
     | Some s => includes "CE" s
     | None => false
     end.

Definition merge_call (entry item : Row) : Row :=
  {| strike_price := strike_price entry;
     option_type := option_type entry; symbol := symbol entry;
     ltp := ltp entry; open_interest := open_interest entry; oi := oi entry;
     bid_price := bid_price entry; bid := bid entry;
     ask_price := ask_price entry; ask := ask entry;
     call_ltp := ltp item ?? call_ltp entry;
     call_oi := open_interest item ?? oi item ?? call_oi entry;
     call_bid := bid_price item ?? bid item ?? call_bid entry;
     call_ask := ask_price item ?? ask item ?? call_ask entry;
     CE := Some (Leg.mk
             (bid_price item ?? bid item ?? opt_field (CE entry) Leg.bidprice)
             (ask_price item ?? ask item ?? opt_field (CE entry) Leg.askprice)
             (ltp item ?? opt_field (CE entry) Leg.ltp));
     put_ltp := put_ltp entry; put_oi := put_oi entry;
     put_bid := put_bid entry; put_ask := put_ask entry; PE := PE entry |}.

Definition merge_put (entry item : Row) : Row :=
  {| strike_price := strike_price entry;
     option_type := option_type entry; symbol := symbol entry;
     ltp := ltp entry; open_interest := open_interest entry; oi := oi entry;
     bid_price := bid_price entry; bid := bid entry;
     ask_price := ask_price entry; ask := ask entry;
     call_ltp := call_ltp entry; call_oi := call_oi entry;
     call_bid := call_bid entry; call_ask := call_ask entry; CE := CE entry;
     put_ltp := ltp item ?? put_ltp entry;
     put_oi := open_interest item ?? oi item ?? put_oi entry;
     put_bid := bid_price item ?? bid item ?? put_bid entry;
     put_ask := ask_price item ?? ask item ?? put_ask entry;
     PE := Some (Leg.mk
             (bid_price item ?? bid item ?? opt_field (PE entry) Leg.bidprice)
             (ask_price item ?? ask item ?? opt_field (PE entry) Leg.askprice)
             (ltp item ?? opt_field (PE entry) Leg.ltp)) |}.

Definition merge_row (entry item : Row) : Row :=
  if isCall item then merge_call entry item else merge_put entry item.

(** [strikeMap.has(strike)] *)
Definition map_has (strike : float) (strikeMap : list Row) : bool :=
  existsb (fun e => JS.same_value_zero (JS.toNumber (strike_price e)) strike)
          strikeMap.

(** The update of the entry stored under [strike], in place. *)
Fixpoint map_update (strike : float) (f : Row -> Row) (strikeMap : list Row)
  : list Row :=
  match strikeMap with
  | [] => []
  | e :: m =>
      if JS.same_value_zero (JS.toNumber (strike_price e)) strike
      then f e :: m
      else e :: map_update strike f m
  end.

(** One round of the [forEach] over the option rows. *)
Definition add_row (strikeMap : list Row) (item : Row) : list Row :=
  match strike_price item with
  | JS.Num strike =>
      (* if (!strike && strike !== 0) return; *)
      if negb (JS.truthy strike) && negb (strike =? 0) then strikeMap
      else
        let m := if map_has strike strikeMap then strikeMap
                 else strikeMap ++ [new_entry strike] in
        map_update strike (fun entry => merge_row entry item) m
  | _ => strikeMap
  end.

Definition by_strike (a b : Row) : float :=
  JS.toNumber (strike_price a) - JS.toNumber (strike_price b).

Definition transformOptionDataForButterfly (rawData : list Row) : list Row :=
  if already_transformed rawData then filter not_index_row rawData
  else
    let optionsOnly := filter not_index_row rawData in
    JS.sort by_strike (fold_left add_row optionsOnly []).

(** ** calculateButterflyRate *)

(** [optionData.find((o) => o.strike_price === strike)] *)
Definition find_strike (optionData : list Row) (strike : float) : option Row :=
  find (fun o => JS.strict_eq (strike_price o) strike) optionData.

Definition toNumberOrNull (v : JS.value) : option float :=
  match v with
  | JS.Num n => if JS.isFinite n then Some n else None
  | _ => None
  end.

Module Extracted.
Record t : Set := mk { bid : option float; ask : option float; ltp : option float }.
End Extracted.

Definition extract (opt : Row) (opType : OptionType) : Extracted.t :=
  match opType with
  | CALL =>
      Extracted.mk
        (toNumberOrNull (call_bid opt ?? opt_field (CE opt) Leg.bidprice
                         ?? call_bid opt))
        (toNumberOrNull (call_ask opt ?? opt_field (CE opt) Leg.askprice
                         ?? call_ask opt))
        (toNumberOrNull (call_ltp opt ?? opt_field (CE opt) Leg.ltp))
  | PUT =>
      Extracted.mk
        (toNumberOrNull (put_bid opt ?? opt_field (PE opt) Leg.bidprice
                         ?? put_bid opt))
        (toNumberOrNull (put_ask opt ?? opt_field (PE opt) Leg.askprice
                         ?? put_ask opt))
        (toNumberOrNull (put_ltp opt ?? opt_field (PE opt) Leg.ltp))
  end.

(** [a ?? b] on the nullable numbers produced by [toNumberOrNull]. *)
Definition or_else (a b : option float) : option float :=
  match a with Some _ => a | None => b end.

(** Price of a bought leg: ask, else last traded price. *)
Definition bought_price (opt : Row) (type : OptionType) : option float :=
  let q := extract opt type in or_else (Extracted.ask q) (Extracted.ltp q).

(** Price of the sold leg: bid, else last traded price. *)
Definition sold_price (opt : Row) (type : OptionType) : option float :=
  let q := extract opt type in or_else (Extracted.bid q) (Extracted.ltp q).

Definition calculateButterflyRate
  (lowerStrike middleStrike upperStrike : float)
  (optionData : list Row) (type : OptionType) : option ButterflyResult.t :=
  match find_strike optionData lowerStrike,
        find_strike optionData middleStrike,
        find_strike optionData upperStrike with
  | Some lowerOption, Some middleOption, Some upperOption =>
      match bought_price lowerOption type,
            sold_price middleOption type,
            bought_price upperOption type with
      | Some lowerAsk, Some middleBid, Some upperAsk =>
          let butterflyRate := lowerAsk - 2 * middleBid + upperAsk in
          let firstLegPremium :=
            match type with CALL => lowerAsk | PUT => upperAsk end in
          Some (ButterflyResult.mk butterflyRate firstLegPremium)
      | _, _, _ => None
      end
  | _, _, _ => None
  end.

(** ** Value percentage and classification *)

Definition calculateValuePercent (butterflyRate firstLegPremium : float) : float :=
  if firstLegPremium <=? 0 then 0
  else (butterflyRate / firstLegPremium) * 100.

Definition getRecommendation (valuePercent : float) : DetailedRecommendation :=
  if valuePercent <=? 10 then ENTRY
  else if valuePercent <=? 15 then HOLD
  else if valuePercent <=? 20 then HOLD
  else AVOID.

Definition getDetailedRecommendation
  (valuePercent distanceFromATM gap : float) : DetailedRecommendation :=
  let isNearATM := distanceFromATM <=? 2 in
  let hasGoodGap := gap <=? 100 in
  if 25 <? valuePercent then EXIT
  else if 20 <? valuePercent then VALUE_BREACH
  else if (valuePercent <=? 10) && isNearATM && hasGoodGap then ENTRY
  else if (valuePercent <=? 10) && isNearATM then PROFIT_BOOKING
  else if (valuePercent <=? 15) && isNearATM then SCALE
  else if (valuePercent <=? 15) && negb isNearATM then HOLD
  else if (valuePercent <=? 20) && negb isNearATM && negb hasGoodGap
       then CHAIN_WARNING
  else if valuePercent <=? 20 then HOLD
  else AVOID.

Definition getAlertType
  (valuePercent distanceFromATM gap : float) : option AlertType :=
  let isNearATM := distanceFromATM <=? 2 in
  let hasGoodGap := gap <=? 100 in
  if (valuePercent <=? 10) && isNearATM && hasGoodGap then Some good_entry
  else if 20 <? valuePercent then Some value_breach
  else if (valuePercent <=? 15) && isNearATM then Some profit_booking
  else if valuePercent <=? 15 then Some scaling_opportunity
  else if negb isNearATM || negb hasGoodGap then Some chain_warning
  else None.

(** ** Strike universe and the at-the-money strike *)

(** [optionData.filter(item => item.strike_price > 0).map(item => item.strike_price)] *)
Definition positive_strikes (optionData : list Row) : list float :=
  map (fun item => JS.toNumber (strike_price item))
      (filter (fun item => JS.gt_zero (strike_price item)) optionData).

Definition ascending (a b : float) : float := a - b.
Definition descending (a b : float) : float := b - a.

(** The callback of [strikes.reduce]. *)
Definition closer (spotPrice prev curr : float) : float :=
  if JS.Math_abs (curr - spotPrice) <? JS.Math_abs (prev - spotPrice)
  then curr else prev.

(** [strikes.reduce(...)] without initial value, on a non-empty array. *)
Definition atm_of (spotPrice first : float) (rest : list float) : float :=
  fold_left (closer spotPrice) rest first.

(** The three legs for a base strike and a gap. *)
Definition legs (type : OptionType) (strike gap : float) : float * float * float :=
  match type with
  | CALL => (strike, strike + gap, strike + gap * 2)
  | PUT => (strike - gap * 2, strike - gap, strike)
  end.

(** ** calculateButterflyChain *)

(** [a || b || 0] for the premium: the mid price, else the last traded
    price, else zero. *)
Definition premium_of (bid ask : float) (ltp : JS.value) : float :=
  let mid := (bid + ask) / 2 in
  if JS.truthy mid then mid
  else if JS.truthy_value ltp then JS.toNumber ltp
  else 0.

(** Assignment [gapData[gapKey] = cell]: the key is the printed number, so
    two numbers name the same key when they print alike. *)
Fixpoint set_gap (gap : float) (cell : GapCell.t) (gapData : list (float * GapCell.t))
  : list (float * GapCell.t) :=
  match gapData with
  | [] => [(gap, cell)]
  | (g, c) :: rest =>
      if JS.same_value_zero g gap then (g, cell) :: rest
      else (g, c) :: set_gap gap cell rest
  end.

Definition gap_step (optionData : list Row) (type : OptionType) (strike : float)
  (gapData : list (float * GapCell.t)) (gap : float) : list (float * GapCell.t) :=
  let '(lowerStrike, middleStrike, upperStrike) := legs type strike gap in
  match calculateButterflyRate lowerStrike middleStrike upperStrike optionData type with
  | Some result =>
      if 0 <? ButterflyResult.rate result then
        let valuePercent :=
          calculateValuePercent (ButterflyResult.rate result)
                                (ButterflyResult.firstLegPremium result) in
        set_gap gap (GapCell.mk (ButterflyResult.rate result) valuePercent) gapData
      else gapData
  | None => gapData
  end.

Definition chain_row (optionData : list Row) (type : OptionType)
  (gaps : list float) (atmStrike strike : float) : ButterflyData.t :=
  let opt := find_strike optionData strike in
  let field (f : Row -> JS.value) : JS.value :=
    match opt with Some o => f o | None => JS.Undefined end in
  let bid := JS.toNumber (match type with
                          | CALL => field call_bid ?? JS.Num 0
                          | PUT => field put_bid ?? JS.Num 0
                          end) in
  let ask := JS.toNumber (match type with
                          | CALL => field call_ask ?? JS.Num 0
                          | PUT => field put_ask ?? JS.Num 0
                          end) in
  let premium := premium_of bid ask (match type with
                                     | CALL => field call_ltp
                                     | PUT => field put_ltp
                                     end) in
  ButterflyData.mk strike premium bid ask (strike =? atmStrike)
    (fold_left (gap_step optionData type strike) gaps []).

Definition default_gaps : list float := [50; 100; 150; 200].

Definition calculateButterflyChain (rawOptionData : list Row) (spotPrice : float)
  (type : OptionType) (gaps : list float) : list ButterflyData.t :=
  let optionData := transformOptionDataForButterfly rawOptionData in
  match optionData with
  | [] => []
  | _ =>
      let strikes :=
        JS.sort (match type with CALL => ascending | PUT => descending end)
                (positive_strikes optionData) in
      match strikes with
      | [] => []
      | first :: rest =>
          let atmStrike := atm_of spotPrice first rest in
          map (chain_row optionData type gaps atmStrike) strikes
      end
  end.

Definition isATMorOTM (strike atmStrike : float) (type : OptionType) : bool :=
  match type with
  | CALL => atmStrike <=? strike
  | PUT => strike <=? atmStrike
  end.

(** ** findBestStrategies *)

(** [optionData.some(d => d.strike_price === strike)] *)
Definition has_strike (optionData : list Row) (strike : float) : bool :=
  existsb (fun d => JS.strict_eq (strike_price d) strike) optionData.

(** The body of the innermost loop: [None] where the source continues
    without a push. *)
Definition candidate (optionData : list Row) (atmStrike maxValuePercent : float)
  (type : OptionType) (gap baseStrike : float) : option ButterflyStrategy.t :=
  let '(lowerStrike, middleStrike, upperStrike) := legs type baseStrike gap in
  if match type with
     | CALL => lowerStrike <? atmStrike
     | PUT => atmStrike <? upperStrike
     end
  then None
  else
    let hasAllStrikes :=
      has_strike optionData lowerStrike
      && has_strike optionData middleStrike
      && has_strike optionData upperStrike in
    if negb hasAllStrikes then None
    else
      match calculateButterflyRate lowerStrike middleStrike upperStrike
                                   optionData type with
      | Some result =>
          let rate := ButterflyResult.rate result in
          let firstLegPremium := ButterflyResult.firstLegPremium result in
          if (0 <? rate) && (rate <? firstLegPremium * 0.5) then
            let valuePercent := calculateValuePercent rate firstLegPremium in
            let distanceFromATM := JS.Math_abs (lowerStrike - atmStrike) in
            let isNearATM := distanceFromATM <=? 100 in
            let hasGoodGap := gap <=? 100 in
            if (valuePercent <=? maxValuePercent) && (0 <? valuePercent) then
              Some (ButterflyStrategy.mk
                      type (lowerStrike, middleStrike, upperStrike) gap
                      firstLegPremium rate valuePercent
                      (JS.Math_round (distanceFromATM / 50))
                      (getRecommendation valuePercent)
                      isNearATM hasGoodGap)
            else None
          else None
      | None => None
      end.

(** The pushes of one pass over the strikes, in order. *)
Fixpoint collect {A B : Type} (f : A -> option B) (l : list A) : list B :=
  match l with
  | [] => []
  | x :: l' =>
      match f x with
      | Some y => y :: collect f l'
      | None => collect f l'
      end
  end.

(** The array [strategies] after the three nested loops. *)
Definition candidates (optionData : list Row) (atmStrike maxValuePercent : float)
  (strikes : list float) : list ButterflyStrategy.t :=
  flat_map (fun type =>
    flat_map (fun gap =>
      collect (candidate optionData atmStrike maxValuePercent type gap) strikes)
      [50; 100; 150; 200])
    [CALL; PUT].

(** The comparator of the final sort. *)
Definition by_value_then_distance (a b : ButterflyStrategy.t) : float :=
  if negb (ButterflyStrategy.valuePercent a =? ButterflyStrategy.valuePercent b)
  then ButterflyStrategy.valuePercent a - ButterflyStrategy.valuePercent b
  else ButterflyStrategy.distanceFromATM a - ButterflyStrategy.distanceFromATM b.

(** The at-the-money strike that [findBestStrategies] works with, when it
    gets as far as computing one. *)
Definition atmStrike_of (rawOptionData : list Row) (spotPrice : float)
  : option float :=
  match JS.sort ascending
          (positive_strikes (transformOptionDataForButterfly rawOptionData)) with
  | [] => None
  | first :: rest => Some (atm_of spotPrice first rest)
  end.

Definition findBestStrategies (rawOptionData : list Row) (spotPrice : float)
  (maxValuePercent : float) : list ButterflyStrategy.t :=
  let optionData := transformOptionDataForButterfly rawOptionData in
  match optionData with
  | [] => []
  | _ =>
      if negb (JS.truthy spotPrice) then []
      else
        let strikes := JS.sort ascending (positive_strikes optionData) in
        match strikes with
        | [] => []
        | first :: rest =>
            let atmStrike := atm_of spotPrice first rest in
            JS.sort by_value_then_distance
              (candidates optionData atmStrike maxValuePercent strikes)
        end
  end.

(** ** findBestTrades *)

Definition best_trade (strategy : ButterflyStrategy.t) : bool :=
  let hasGoodValue := ButterflyStrategy.valuePercent strategy <=? 15 in
  let isNearATM := ButterflyStrategy.distanceFromATM strategy <=? 2 in
  let hasGoodGap := ButterflyStrategy.gap strategy <=? 100 in
  hasGoodValue && isNearATM && hasGoodGap.

Definition findBestTrades (rawOptionData : list Row) (spotPrice : float)
  : list ButterflyStrategy.t :=
  let allStrategies := findBestStrategies rawOptionData spotPrice 15 in
  firstn 8 (filter best_trade allStrategies).

(** ** Sample data *)

(** A grouped row with call quotes only. *)
Definition call_row (strike : float) (b a l : JS.value) : Row :=
  {| strike_price := JS.Num strike; option_type := None; symbol := None;
     ltp := JS.Undefined; open_interest := JS.Undefined; oi := JS.Undefined;
     bid_price := JS.Undefined; bid := JS.Undefined;
     ask_price := JS.Undefined; ask := JS.Undefined;
     call_ltp := l; call_oi := JS.Undefined;
     call_bid := b; call_ask := a; CE := None;
     put_ltp := JS.Undefined; put_oi := JS.Undefined;
     put_bid := JS.Undefined; put_ask := JS.Undefined; PE := None |}.

(** A raw feed row of one contract. *)
Definition feed_row (strike : float) (side : string) (b a l : JS.value) : Row :=
  {| strike_price := JS.Num strike; option_type := Some side; symbol := None;
     ltp := l; open_interest := JS.Undefined; oi := JS.Undefined;
     bid_price := b; bid := JS.Undefined;
     ask_price := a; ask := JS.Undefined;
     call_ltp := JS.Undefined; call_oi := JS.Undefined;
     call_bid := JS.Undefined; call_ask := JS.Undefined; CE := None;
     put_ltp := JS.Undefined; put_oi := JS.Undefined;
     put_bid := JS.Undefined; put_ask := JS.Undefined; PE := None |}.

(** A feed of five call contracts and one put contract. *)
Definition sample_feed : list Row :=
  [ feed_row 24000 "CE" (JS.Num 99) (JS.Num 100) (JS.Num 99.5);
    feed_row 24050 "CE" (JS.Num 54) (JS.Num 56) (JS.Num 55);
    feed_row 24100 "CE" (JS.Num 20) (JS.Num 21) (JS.Num 20.5);
    feed_row 24150 "CE" (JS.Num 4) (JS.Num 5) (JS.Num 4.5);
    feed_row 24200 "CE" (JS.Num 1) (JS.Num 2) (JS.Num 1.5);
    feed_row 24000 "PE" (JS.Num 9) (JS.Num 10) (JS.Num 9.5) ].

(** The one strategy that [sample_feed] yields at spot 24010. *)
Definition sample_strategy : ButterflyStrategy.t :=
  ButterflyStrategy.mk CALL (24000, 24050, 24100) 50 100 13 13 0 HOLD true true.

(** The quotes of the worked example of the specification: lower ask 100,
    middle bid 40, upper ask 95. *)
Definition worked_example : list Row :=
  [ call_row 24000 (JS.Num 99) (JS.Num 100) (JS.Num 99.5);
    call_row 24050 (JS.Num 40) (JS.Num 41) (JS.Num 40.5);
    call_row 24100 (JS.Num 94) (JS.Num 95) (JS.Num 94.5) ].

(** A strike quoted on the bid side only. *)
Definition one_sided_chain : list Row :=
  [ call_row 24000 (JS.Num 10) JS.Undefined (JS.Num 7) ].


(** ** Notions used in the statements *)

(** The priority table of the detailed classification, as the specification
    lists it: nine rules, the first that applies gives the label. *)
Definition nearATM (distanceFromATM : float) : bool := distanceFromATM <=? 2.
Definition goodGap (gap : float) : bool := gap <=? 100.

Definition priority_table (valuePercent distanceFromATM gap : float)
  : list (bool * DetailedRecommendation) :=
  [ (25 <? valuePercent, EXIT);
    (20 <? valuePercent, VALUE_BREACH);
    ((valuePercent <=? 10) && nearATM distanceFromATM && goodGap gap, ENTRY);
    ((valuePercent <=? 10) && nearATM distanceFromATM, PROFIT_BOOKING);
    ((valuePercent <=? 15) && nearATM distanceFromATM, SCALE);
    (valuePercent <=? 15, HOLD);
    ((valuePercent <=? 20) && negb (nearATM distanceFromATM) && negb (goodGap gap),
     CHAIN_WARNING);
    (valuePercent <=? 20, HOLD) ].

Fixpoint first_match (rules : list (bool * DetailedRecommendation))
  (otherwise : DetailedRecommendation) : DetailedRecommendation :=
  match rules with
  | [] => otherwise
  | (true, label) :: _ => label
  | (false, _) :: rest => first_match rest otherwise
  end.

(** The quote fields of a row on one side. *)
Definition side_bid (type : OptionType) (o : Row) : JS.value :=
  match type with CALL => call_bid o | PUT => put_bid o end.
Definition side_ask (type : OptionType) (o : Row) : JS.value :=
  match type with CALL => call_ask o | PUT => put_ask o end.
Definition side_ltp (type : OptionType) (o : Row) : JS.value :=
  match type with CALL => call_ltp o | PUT => put_ltp o end.

(** The premium rule as the specification words it: the mid price when bid
    and ask are both present, else the last traded price, else 0. *)
Definition claimed_premium (b a l : JS.value) : float :=
  match b, a with
  | JS.Num x, JS.Num y => (x + y) / 2
  | _, _ => match l with JS.Num z => z | _ => 0 end
  end.

(** The legs of a strategy. *)
Definition lower_strike (s : ButterflyStrategy.t) : float :=
  fst (fst (ButterflyStrategy.strikes s)).
Definition upper_strike (s : ButterflyStrategy.t) : float :=
  snd (ButterflyStrategy.strikes s).

(** Ranking order: smaller value percentage first, and at equal value
    percentage the smaller distance first. *)
Definition ranked_before (a b : ButterflyStrategy.t) : Prop :=
  (ButterflyStrategy.valuePercent a <? ButterflyStrategy.valuePercent b) = true
  \/ ((ButterflyStrategy.valuePercent a =? ButterflyStrategy.valuePercent b) = true
      /\ (ButterflyStrategy.distanceFromATM a <=? ButterflyStrategy.distanceFromATM b)
         = true).

(** Strike of a row, as a number. *)
Definition strike_of (r : Row) : float := JS.toNumber (strike_price r).

(** No row of the chain has an infinite strike price. *)
Definition finite_strikes (rawData : list Row) : Prop :=
  forall r x, In r rawData -> strike_price r = JS.Num x -> is_infinity x = false.


(** Keys of the normalizer's map: numbers other than NaN, pairwise
    different. *)
Definition number_key (v : JS.value) : Prop :=
  exists x, v = JS.Num x /\ is_nan x = false.

Definition distinct_keys (a b : JS.value) : Prop :=
  (JS.toNumber a =? JS.toNumber b) = false.

Definition keys_inv (keys : list JS.value) : Prop :=
  Forall number_key keys /\ ForallOrdPairs distinct_keys keys.


(** A raw feed row of the call side that carries a bid only, and one that
    carries an ask only. *)
Definition bid_only (strike b : float) : Row :=
  feed_row strike "CE" (JS.Num b) JS.Undefined JS.Undefined.
Definition ask_only (strike a : float) : Row :=
  feed_row strike "CE" JS.Undefined (JS.Num a) JS.Undefined.

(** Sign and magnitude classes of a specification-level float. *)
Definition negative (f : spec_float) : bool :=
  match f with
  | S754_finite s _ _ | S754_infinity s => s
  | _ => false
  end.

Definition nonzero (f : spec_float) : bool :=
  match f with
  | S754_finite _ _ _ | S754_infinity _ => true
  | _ => false
  end.

Definition SFfinite (f : spec_float) : bool :=
  match f with
  | S754_finite _ _ _ | S754_zero _ => true
  | _ => false
  end.

(** The integer mantissa of a finite number once aligned at exponent [ez]. *)
Definition aligned (s : bool) (m : positive) (e ez : Z) : Z :=
  cond_Zopp s (Zpos (fst (shl_align m e ez))).

Definition fcompare (x y : float) : option comparison :=
  SFcompare (Prim2SF x) (Prim2SF y).

(** [x] is put on the right side of [y] by one comparison. *)
Definition placed {A : Type} (cmp : A -> A -> float) (R : A -> A -> Prop)
  (x y : A) : Prop :=
  ((cmp x y <? 0) = true -> R x y) /\ ((cmp x y <? 0) = false -> R y x).

(** ** The rest of the module and its callers *)

(** [getValueColorClass] of the calculation module. *)
Definition getValueColorClass (valuePercent : float) : string :=
  if valuePercent <=? 15 then "text-emerald-500 bg-emerald-500/10"
  else if valuePercent <=? 20 then "text-yellow-500 bg-yellow-500/10"
  else "text-red-500 bg-red-500/10".

(** The memoized computation of [ButterflyChainTable]: the chain matrix and
    the at-the-money strike that the rows are rendered against. *)
Definition chainTable_memo (optionData : list Row) (spotPrice : float)
  (type : OptionType) : list ButterflyData.t * float :=
  match optionData with
  | [] => ([], 0)
  | _ =>
      if negb (JS.truthy spotPrice) then ([], 0)
      else
        let data := calculateButterflyChain optionData spotPrice type default_gaps in
        let strikes := filter (fun s => 0 <? s) (map ButterflyData.strike data) in
        (* strikes[0] || 0 *)
        let initial := match strikes with
                       | [] => 0
                       | s :: _ => if JS.truthy s then s else 0
                       end in
        (data, fold_left (closer spotPrice) strikes initial)
  end.

(** [isITM] of a rendered row. *)
Definition rendered_ITM (row : ButterflyData.t) (atmStrike : float)
  (type : OptionType) : bool :=
  negb (isATMorOTM (ButterflyData.strike row) atmStrike type).

(** The distance to the spot price that the at-the-money search compares. *)
Definition spot_distance (spotPrice strike : float) : float :=
  JS.Math_abs (strike - spotPrice).

(** Row order of the chain matrix: ascending for calls, descending for
    puts. *)
Definition display_order (type : OptionType) (a b : float) : Prop :=
  match type with
  | CALL => (a <=? b) = true
  | PUT => (b <=? a) = true
  end.

(** The comparator of the strike sort of the chain matrix. *)
Definition chain_compare (type : OptionType) : float -> float -> float :=
  match type with CALL => ascending | PUT => descending end.

(** What the fold over the gaps leaves in the [gaps] object of a row: the
    cell of a requested gap whose butterfly was priced with a positive
    rate. *)
Definition priced_cell (optionData : list Row) (type : OptionType)
  (strike : float) (gaps : list float) (entry : float * GapCell.t) : Prop :=
  exists gap result,
    In gap gaps /\ JS.same_value_zero (fst entry) gap = true /\
    (let '(lo, mi, up) := legs type strike gap in
     calculateButterflyRate lo mi up optionData type) = Some result /\
    (0 <? ButterflyResult.rate result) = true /\
    snd entry
    = GapCell.mk (ButterflyResult.rate result)
        (calculateValuePercent (ButterflyResult.rate result)
           (ButterflyResult.firstLegPremium result)).

(** The four quantities the normalizer groups, as a feed row carries them
    (with its alternative field names) and as an entry holds them for one
    side. *)
Inductive Quantity : Set := Q_ltp | Q_oi | Q_bid | Q_ask.

Definition feed_quantity (q : Quantity) (item : Row) : JS.value :=
  match q with
  | Q_ltp => ltp item
  | Q_oi => open_interest item ?? oi item
  | Q_bid => bid_price item ?? bid item
  | Q_ask => ask_price item ?? ask item
  end.

Definition entry_quantity (side : OptionType) (q : Quantity) (entry : Row)
  : JS.value :=
  match side, q with
  | CALL, Q_ltp => call_ltp entry
  | CALL, Q_oi => call_oi entry
  | CALL, Q_bid => call_bid entry
  | CALL, Q_ask => call_ask entry
  | PUT, Q_ltp => put_ltp entry
  | PUT, Q_oi => put_oi entry
  | PUT, Q_bid => put_bid entry
  | PUT, Q_ask => put_ask entry
  end.

(** The side a feed row is routed to. *)
Definition side_of (item : Row) : OptionType :=
  if isCall item then CALL else PUT.

(** Where a number held by an entry comes from: a row among [rows] of the
    same side and strike that carries it. *)
Definition from_feed (rows : list Row) (entry : Row) : Prop :=
  forall side q v,
    entry_quantity side q entry = JS.Num v ->
    exists item,
      In item rows /\ side_of item = side
      /\ JS.same_value_zero (strike_of entry) (strike_of item) = true
      /\ feed_quantity q item = JS.Num v.

(** *** The multi-leg table ([MultiButterflyChainTable]) *)

Module LegConfig.
Record t : Set := mk { gap : float; ratio : float }.
End LegConfig.

(** The ratio written [1.33] in the source: the double nearest to it. *)
Definition ratio_1_33 : float := 0x1.547ae147ae148p+0.

Definition CE_LEGS : list LegConfig.t :=
  [ LegConfig.mk 50 2; LegConfig.mk 100 2; LegConfig.mk 100 ratio_1_33;
    LegConfig.mk 150 1.5; LegConfig.mk 150 2; LegConfig.mk 200 2;
    LegConfig.mk 250 1.5 ].

Definition PE_LEGS : list LegConfig.t :=
  [ LegConfig.mk 50 ratio_1_33; LegConfig.mk 100 1.5;
    LegConfig.mk 100 ratio_1_33; LegConfig.mk 150 1.5; LegConfig.mk 150 2;
    LegConfig.mk 200 2; LegConfig.mk 250 2 ].

Module LegValue.
Record t : Set := mk {
  rate : float;
  value : float;
  ratio : float;
  firstAsk : float;
  middleBid : float
}.
End LegValue.

Module MultiRow.
(** [legs] maps the key [leg<index>] to its value; the key is kept as the
    index. *)
Record t : Set := mk {
  strike : float;
  bid : float;
  ask : float;
  ltp : float;
  isATM : bool;
  legs : list (nat * LegValue.t)
}.
End MultiRow.

(** SameValueZero on the values of the model, the key equality of the
    [Map] from strike to row. *)
Definition same_key (a b : JS.value) : bool :=
  match a, b with
  | JS.Undefined, JS.Undefined => true
  | JS.Null, JS.Null => true
  | JS.Num x, JS.Num y => JS.same_value_zero x y
  | _, _ => false
  end.

(** [strikeDataMap.set(key, item)]: the value of an existing key is
    replaced, a new key goes to the end. *)
Fixpoint strike_map_set (key : JS.value) (item : Row)
  (m : list (JS.value * Row)) : list (JS.value * Row) :=
  match m with
  | [] => [(key, item)]
  | (k, v) :: rest =>
      if same_key k key then (k, item) :: rest
      else (k, v) :: strike_map_set key item rest
  end.

(** [strikeDataMap.get(strike)] *)
Definition strike_map_get (strike : float) (m : list (JS.value * Row))
  : option Row :=
  match find (fun kv => same_key (fst kv) (JS.Num strike)) m with
  | Some kv => Some (snd kv)
  | None => None
  end.

(** [data?.field] on the result of a lookup. *)
Definition row_field (data : option Row) (f : Row -> JS.value) : JS.value :=
  match data with Some o => f o | None => JS.Undefined end.

Definition row_leg (data : option Row) (type : OptionType) : option Leg.t :=
  match data with
  | Some o => match type with CALL => CE o | PUT => PE o end
  | None => None
  end.

(** The ask of the bought base leg, else its last traded price. *)
Definition base_ask (data : option Row) (type : OptionType) : option float :=
  or_else
    (toNumberOrNull (row_field data (side_ask type)
                     ?? opt_field (row_leg data type) Leg.askprice))
    (toNumberOrNull (row_field data (side_ltp type)
                     ?? opt_field (row_leg data type) Leg.ltp)).

(** The bid of the sold middle leg, else its last traded price. *)
Definition middle_bid (data : option Row) (type : OptionType) : option float :=
  or_else
    (toNumberOrNull (row_field data (side_bid type)
                     ?? opt_field (row_leg data type) Leg.bidprice))
    (toNumberOrNull (row_field data (side_ltp type)
                     ?? opt_field (row_leg data type) Leg.ltp)).

(** The body of [legs.forEach] for one leg: [None] where it returns without
    an assignment. *)
Definition leg_value (strikeDataMap : list (JS.value * Row))
  (type : OptionType) (strike : float) (leg : LegConfig.t)
  : option LegValue.t :=
  let gap := LegConfig.gap leg in
  let ratio := LegConfig.ratio leg in
  let baseStrike := strike in
  let middleStrike := match type with
                      | CALL => strike + gap
                      | PUT => strike - gap
                      end in
  let baseData := strike_map_get baseStrike strikeDataMap in
  let middleData := strike_map_get middleStrike strikeDataMap in
  match base_ask baseData type, middle_bid middleData type with
  | Some baseAsk, Some middleBid =>
      let rate := baseAsk - ratio * middleBid in
      let firstLegPremium := baseAsk in
      let value :=
        if JS.truthy firstLegPremium && (0 <? firstLegPremium)
        then (rate / firstLegPremium) * 100 else 0 in
      Some (LegValue.mk rate value ratio baseAsk middleBid)
  | _, _ => None
  end.

(** The [legValues] object: the legs that got a value, with their index. *)
Fixpoint leg_values (strikeDataMap : list (JS.value * Row))
  (type : OptionType) (strike : float) (index : nat)
  (legs : list LegConfig.t) : list (nat * LegValue.t) :=
  match legs with
  | [] => []
  | leg :: rest =>
      match leg_value strikeDataMap type strike leg with
      | Some v =>
          (index, v) :: leg_values strikeDataMap type strike (S index) rest
      | None => leg_values strikeDataMap type strike (S index) rest
      end
  end.

(** [toNumberOrNull(x) ?? 0] *)
Definition number_or_zero (v : JS.value) : float :=
  match toNumberOrNull v with Some n => n | None => 0 end.

Definition multi_row (strikeDataMap : list (JS.value * Row))
  (type : OptionType) (legs : list LegConfig.t) (atm strike : float)
  : MultiRow.t :=
  (* strikeDataMap.get(strike) ?? {} *)
  let strikeInfo := strike_map_get strike strikeDataMap in
  MultiRow.mk strike
    (number_or_zero (row_field strikeInfo (side_bid type)))
    (number_or_zero (row_field strikeInfo (side_ask type)))
    (number_or_zero (row_field strikeInfo (side_ltp type)))
    (strike =? atm)
    (leg_values strikeDataMap type strike 0 legs).

(** The memoized computation of the component: its rows and its
    at-the-money strike. *)
Definition multiTable_memo (optionData : list Row) (spotPrice : float)
  (type : OptionType) : list MultiRow.t * float :=
  match optionData with
  | [] => ([], 0)
  | _ =>
      if negb (JS.truthy spotPrice) then ([], 0)
      else
        let transformedData := transformOptionDataForButterfly optionData in
        let strikes := JS.sort ascending (positive_strikes transformedData) in
        let atm := match strikes with
                   | [] => 0
                   | first :: rest => atm_of spotPrice first rest
                   end in
        let legs := match type with CALL => CE_LEGS | PUT => PE_LEGS end in
        let strikeDataMap :=
          fold_left (fun m item => strike_map_set (strike_price item) item m)
                    transformedData [] in
        let sortedStrikes := JS.sort (chain_compare type) strikes in
        (map (multi_row strikeDataMap type legs atm) sortedStrikes, atm)
  end.

(** The colour scale of the two tables: [ButterflyChainTable] and
    [MultiButterflyChainTable] each define this function, with the same text
    and under the name of the one in the calculation module. *)
Module Tables.
Definition getValueColorClass (value : float) : string :=
  if 90 <=? value then "bg-emerald-500/20 text-emerald-400"
  else if 70 <=? value then "bg-green-500/20 text-green-400"
  else if 50 <=? value then "bg-yellow-500/20 text-yellow-400"
  else if 30 <=? value then "bg-orange-500/20 text-orange-400"
  else if 0 <? value then "bg-red-500/20 text-red-400"
  else "text-muted-foreground".
End Tables.

(** Two strikes at the same distance from the spot price 24050. *)
Definition tie_chain : list Row :=
  [ call_row 24000 (JS.Num 99) (JS.Num 100) (JS.Num 99.5);
    call_row 24100 (JS.Num 20) (JS.Num 21) (JS.Num 20.5) ].

(** The base strike of a strategy: the lower strike of a call butterfly, the
    upper strike of a put butterfly. *)
Definition base_strike (s : ButterflyStrategy.t) : float :=
  match ButterflyStrategy.type s with
  | CALL => lower_strike s
  | PUT => upper_strike s
  end.

(** Gap keys that name different cells. *)
Definition distinct_gaps (gaps : list float) : Prop :=
  ForallOrdPairs (fun a b => JS.same_value_zero a b = false) gaps.

(** * Properties *)

(** ** Order of binary64 numbers *)

Module FloatFacts.

Local Open Scope float_scope.

Lemma SFcompare_antisym a b :
SFcompare b a = option_map CompOpp (SFcompare a b).
Proof.
destruct a as [sa|sa| |sa ma ea], b as [sb|sb| |sb mb eb]; simpl;
  try destruct sa; try destruct sb; simpl; try reflexivity;
  rewrite (Z.compare_antisym ea eb);
  destruct (ea ?= eb)%Z; simpl; try reflexivity;
  change (PosDef.Pos.compare_cont Eq) with Pos.compare;
  rewrite (Pos.compare_antisym ma mb);
  now rewrite ?CompOpp_involutive.
Qed.

Lemma SFcompare_refl a : a <> S754_nan -> SFcompare a a = Some Eq.
Proof.
destruct a as [s|s| |s m e]; simpl; intros H; try destruct s; try reflexivity;
  try congruence; rewrite Z.compare_refl;
  change (PosDef.Pos.compare_cont Eq) with Pos.compare;
  now rewrite Pos.compare_refl.
Qed.

Lemma is_nan_spec x : is_nan x = true <-> Prim2SF x = S754_nan.
Proof.
unfold is_nan. split.
- rewrite FloatAxioms.eqb_spec. unfold SFeqb. intros H.
  destruct (Prim2SF x) eqn:E; try reflexivity;
    rewrite SFcompare_refl in H by congruence; discriminate.
- intros E. rewrite FloatAxioms.eqb_spec, E. reflexivity.
Qed.

Lemma fcompare_Some x y :
is_nan x = false -> is_nan y = false -> exists c, fcompare x y = Some c.
Proof.
intros Hx Hy. unfold fcompare.
assert (Prim2SF x <> S754_nan) by (intros E; apply is_nan_spec in E; congruence).
assert (Prim2SF y <> S754_nan) by (intros E; apply is_nan_spec in E; congruence).
destruct (Prim2SF x) as [[]|[]| |[] ? ?], (Prim2SF y) as [[]|[]| |[] ? ?]; simpl; try congruence; eauto.
Qed.

Lemma fcompare_antisym x y : fcompare y x = option_map CompOpp (fcompare x y).
Proof. apply SFcompare_antisym. Qed.

Lemma ltb_fcompare x y : (x <? y) = true <-> fcompare x y = Some Lt.
Proof.
rewrite FloatAxioms.ltb_spec; unfold SFltb, fcompare.
destruct (SFcompare _ _) as [[]|]; split; congruence.
Qed.

Lemma leb_fcompare x y :
(x <=? y) = true <-> fcompare x y = Some Lt \/ fcompare x y = Some Eq.
Proof.
rewrite FloatAxioms.leb_spec. unfold SFleb, fcompare.
destruct (SFcompare _ _) as [[]|]; split; intros; try tauto; try congruence;
destruct H; congruence.
Qed.

Lemma eqb_fcompare x y : (x =? y) = true <-> fcompare x y = Some Eq.
Proof.
rewrite FloatAxioms.eqb_spec. unfold SFeqb, fcompare.
destruct (SFcompare _ _) as [[]|]; split; congruence.
Qed.

Lemma fcompare_not_nan x y c :
fcompare x y = Some c -> is_nan x = false /\ is_nan y = false.
Proof.
unfold fcompare. intros H.
split; apply not_true_is_false; intros E; apply is_nan_spec in E;
  rewrite E in H; destruct (Prim2SF _); discriminate.
Qed.

(** The comparisons on numbers that are not NaN form a total preorder. *)
Lemma ltb_false_leb x y :
is_nan x = false -> is_nan y = false -> (x <? y) = false -> (y <=? x) = true.
Proof.
intros Hx Hy H. destruct (fcompare_Some x y Hx Hy) as [c Hc].
apply leb_fcompare. rewrite (fcompare_antisym x y), Hc.
destruct c; simpl; auto.
apply ltb_fcompare in Hc. congruence.
Qed.

Lemma ltb_not_nan x y : (x <? y) = true -> is_nan x = false /\ is_nan y = false.
Proof. intros H. apply ltb_fcompare in H. eapply fcompare_not_nan; eauto. Qed.

Lemma leb_not_nan x y : (x <=? y) = true -> is_nan x = false /\ is_nan y = false.
Proof. intros H. apply leb_fcompare in H. destruct H; eapply fcompare_not_nan; eauto. Qed.

Lemma ltb_leb x y : (x <? y) = true -> (x <=? y) = true.
Proof. intros H. apply leb_fcompare. left. now apply ltb_fcompare. Qed.

Lemma eqb_sym x y : (x =? y) = (y =? x).
Proof.
rewrite !FloatAxioms.eqb_spec. unfold SFeqb. rewrite (SFcompare_antisym (Prim2SF x)).
destruct (SFcompare _ _) as [[]|]; reflexivity.
Qed.

Lemma eqb_leb x y : (x =? y) = true -> (x <=? y) = true.
Proof. intros H. apply leb_fcompare. right. now apply eqb_fcompare. Qed.

Lemma leb_neq_ltb x y : (x <=? y) = true -> (x =? y) = false -> (x <? y) = true.
Proof.
intros H N. apply leb_fcompare in H. apply ltb_fcompare.
destruct H as [H|H]; auto. apply eqb_fcompare in H. congruence.
Qed.

Lemma Prim2SF_not_nan x : is_nan x = false -> Prim2SF x <> S754_nan.
Proof.
intros H E. apply is_nan_spec in E. congruence.
Qed.

(** ** Rounding keeps the sign of a non-zero result *)

Local Open Scope Z_scope.

Lemma digits2_pos_bounds m :
2 ^ (Zpos (digits2_pos m) - 1) <= Zpos m < 2 ^ Zpos (digits2_pos m).
Proof.
induction m as [p IH|p IH|]; simpl digits2_pos.
- rewrite Pos2Z.inj_succ. replace (Z.succ (Zpos (digits2_pos p)) - 1) with (Z.succ (Zpos (digits2_pos p) - 1)) by lia.
  rewrite !Z.pow_succ_r by lia. lia.
- rewrite Pos2Z.inj_succ. replace (Z.succ (Zpos (digits2_pos p)) - 1) with (Z.succ (Zpos (digits2_pos p) - 1)) by lia.
  rewrite !Z.pow_succ_r by lia. lia.
- simpl. lia.
Qed.

Lemma iter_xO_pow m d : Zpos (Pos.iter xO m d) = Zpos m * 2 ^ Zpos d.
Proof.
induction d as [|d IH] using Pos.peano_ind.
- simpl. lia.
- rewrite Pos.iter_succ, Pos2Z.inj_succ, Z.pow_succ_r by lia.
  rewrite Pos2Z.inj_xO, IH. lia.
Qed.

Lemma shl_align_fst m e e' :
e' <= e -> Zpos (fst (shl_align m e e')) = Zpos m * 2 ^ (e - e').
Proof.
intros H. unfold shl_align.
destruct (e' - e) as [|d|d] eqn:E; try lia.
- replace (e - e') with 0 by lia. simpl. lia.
- simpl fst. rewrite iter_xO_pow. f_equal. f_equal. lia.
Qed.

Lemma shl_align_snd m e e' : snd (shl_align m e e') = Z.min e e'.
Proof.
unfold shl_align. destruct (e' - e) eqn:E; simpl; lia.
Qed.

Lemma shr_m_shr_1 r : 0 <= shr_m r -> shr_m (shr_1 r) = shr_m r / 2.
Proof.
destruct r as [m r s]. cbn [shr_m shr_1]. intros H.
rewrite <- Z.div2_div.
destruct m as [|[p|p|]|p]; try reflexivity; lia.
Qed.

Lemma shr_m_iter p : forall r,
0 <= shr_m r -> shr_m (SpecFloat.iter_pos shr_1 p r) = shr_m r / 2 ^ Zpos p.
Proof.
induction p as [p IH|p IH|]; intros r Hr; simpl SpecFloat.iter_pos.
- assert (H1 : 0 <= shr_m (shr_1 r)) by (rewrite shr_m_shr_1 by auto; apply Z.div_pos; lia).
  assert (H2 : 0 <= shr_m (SpecFloat.iter_pos shr_1 p (shr_1 r)))
    by (rewrite IH by auto; apply Z.div_pos; lia).
  rewrite IH, IH, shr_m_shr_1 by auto.
  rewrite !Z.div_div by lia. f_equal.
  change 2 with (2 ^ 1) at 1. rewrite <- !Z.pow_add_r by lia. f_equal. lia.
- assert (H2 : 0 <= shr_m (SpecFloat.iter_pos shr_1 p r))
    by (rewrite IH by auto; apply Z.div_pos; lia).
  rewrite IH, IH by auto.
  rewrite !Z.div_div by lia. f_equal.
  rewrite <- !Z.pow_add_r by lia. f_equal. lia.
- rewrite shr_m_shr_1 by auto. reflexivity.
Qed.

Lemma shr_m_record_of_loc m l : shr_m (shr_record_of_loc m l) = m.
Proof. destruct l as [|[]]; reflexivity. Qed.

Local Abbreviation emin := (SpecFloat.emin prec emax).

Lemma shr_fexp_pos m e l :
0 < m -> emin <= e ->
0 < shr_m (fst (shr_fexp prec emax m e l)) /\ emin <= snd (shr_fexp prec emax m e l).
Proof.
intros Hm He. unfold shr_fexp, shr.
destruct m as [|m|m]; try lia. simpl Zdigits2.
pose proof (digits2_pos_bounds m) as [Hlb _].
set (d := Zpos (digits2_pos m)) in *.
destruct (fexp prec emax (d + e) - e) as [|p|p] eqn:E; simpl fst; simpl snd;
  rewrite ?shr_m_record_of_loc; try (split; lia).
unfold fexp in E. unfold SpecFloat.emin, prec, emax in *.
split; [|lia].
rewrite shr_m_iter by (rewrite shr_m_record_of_loc; lia).
rewrite shr_m_record_of_loc.
apply Z.div_str_pos. split; [lia|].
apply Z.le_trans with (2 ^ (d - 1)); auto.
apply Z.pow_le_mono_r; lia.
Qed.

Lemma round_nearest_even_ge m l : m <= round_nearest_even m l.
Proof.
unfold round_nearest_even. destruct l as [|[]]; try lia.
destruct (Z.even m); lia.
Qed.

Lemma binary_round_aux_pos s m e l :
0 < m -> emin <= e ->
negative (binary_round_aux prec emax s m e l) = s /\
nonzero (binary_round_aux prec emax s m e l) = true.
Proof.
intros Hm He. unfold binary_round_aux.
pose proof (shr_fexp_pos m e l Hm He) as [H1 H2].
destruct (shr_fexp prec emax m e l) as [r1 e1]. simpl in H1, H2.
pose proof (round_nearest_even_ge (shr_m r1) (loc_of_shr_record r1)) as Hr.
pose proof (shr_fexp_pos (round_nearest_even (shr_m r1) (loc_of_shr_record r1)) e1 loc_Exact ltac:(lia) H2) as [H3 H4].
destruct (shr_fexp prec emax _ e1 loc_Exact) as [r2 e2]. simpl in H3, H4.
destruct (shr_m r2); try lia.
destruct (e2 <=? emax - prec); simpl; auto.
Qed.

Lemma binary_normalize_sign D e sz :
emin <= e -> D <> 0 ->
negative (binary_normalize prec emax D e sz) = (D <? 0) /\
nonzero (binary_normalize prec emax D e sz) = true.
Proof.
intros He HD. unfold binary_normalize, binary_round.
destruct D as [|m|m]; try lia.
- pose proof (shl_align_snd m e (fexp prec emax (Zpos (digits2_pos m) + e))) as Hs.
  destruct (shl_align m e _) as [mz ez]. simpl in Hs.
  apply binary_round_aux_pos; try lia.
  unfold fexp in Hs. lia.
- pose proof (shl_align_snd m e (fexp prec emax (Zpos (digits2_pos m) + e))) as Hs.
  destruct (shl_align m e _) as [mz ez]. simpl in Hs.
  apply binary_round_aux_pos; try lia.
  unfold fexp in Hs. lia.
Qed.

Lemma bounded_inv m e :
bounded prec emax m e = true ->
emin <= e /\ Zpos (digits2_pos m) <= prec /\
(emin < e -> Zpos (digits2_pos m) = prec).
Proof.
unfold bounded, canonical_mantissa, fexp. intros H.
apply andb_prop in H. destruct H as [H _]. apply Z.eqb_eq in H.
unfold SpecFloat.emin, prec, emax in *. lia.
Qed.

(** Two canonical mantissas: the one with the larger exponent is larger. *)
Lemma bounded_exponent_lt mx ex my ey :
bounded prec emax mx ex = true -> bounded prec emax my ey = true ->
ex < ey -> Zpos mx < Zpos my * 2 ^ (ey - ex).
Proof.
intros Hx Hy Hlt.
apply bounded_inv in Hx, Hy.
destruct Hx as (Hex & Hdx & _), Hy as (_ & _ & Hdy).
specialize (Hdy ltac:(lia)).
pose proof (digits2_pos_bounds mx) as [_ Hux].
pose proof (digits2_pos_bounds my) as [Hly _].
rewrite Hdy in Hly.
assert (H1 : 2 ^ Zpos (digits2_pos mx) <= 2 ^ prec) by (apply Z.pow_le_mono_r; lia).
assert (H2 : 2 ^ 1 <= 2 ^ (ey - ex)) by (apply Z.pow_le_mono_r; lia).
assert (H3 : 2 ^ prec = 2 * 2 ^ (prec - 1)) by reflexivity.
change (2 ^ 1) with 2 in H2. nia.
Qed.

Lemma SFcompare_aligned sx mx ex sy my ey :
bounded prec emax mx ex = true -> bounded prec emax my ey = true ->
SFcompare (S754_finite sx mx ex) (S754_finite sy my ey)
= Some (aligned sx mx ex (Z.min ex ey) ?= aligned sy my ey (Z.min ex ey)).
Proof.
intros Hx Hy. unfold aligned.
rewrite !shl_align_fst by lia.
assert (P1 : 0 < 2 ^ (ex - Z.min ex ey)) by (apply Z.pow_pos_nonneg; lia).
assert (P2 : 0 < 2 ^ (ey - Z.min ex ey)) by (apply Z.pow_pos_nonneg; lia).
simpl SFcompare. f_equal.
change (PosDef.Pos.compare_cont Eq) with Pos.compare.
destruct (Z.compare_spec ex ey) as [E|L|G].
- subst ey. rewrite Z.min_id, Z.sub_diag in *. rewrite !Z.mul_1_r.
  destruct sx, sy; simpl; try reflexivity.
- pose proof (bounded_exponent_lt mx ex my ey Hx Hy L) as B.
  replace (Z.min ex ey) with ex in * by lia.
  rewrite Z.sub_diag in *. rewrite Z.mul_1_r.
  destruct sx, sy; unfold cond_Zopp; cbv beta iota; symmetry;
    first [apply Z.compare_lt_iff | apply Z.compare_gt_iff]; lia.
- pose proof (bounded_exponent_lt my ey mx ex Hy Hx ltac:(lia)) as B.
  replace (Z.min ex ey) with ey in * by lia.
  rewrite Z.sub_diag in *. rewrite Z.mul_1_r.
  destruct sx, sy; unfold cond_Zopp; cbv beta iota; symmetry;
    first [apply Z.compare_lt_iff | apply Z.compare_gt_iff]; lia.
Qed.

Lemma SFsub_negative a b :
valid_binary a = true -> valid_binary b = true ->
a <> S754_nan -> b <> S754_nan ->
negative (SF64sub a b) = SFltb a b.
Proof.
intros Va Vb Na Nb. unfold SF64sub, SFltb.
destruct a as [sa|sa| |sa ma ea], b as [sb|sb| |sb mb eb]; try congruence;
  try (destruct sa; try destruct sb; reflexivity);
  try (destruct sb; try destruct sa; reflexivity).
simpl in Va, Vb.
rewrite (SFcompare_aligned _ _ _ _ _ _ Va Vb).
unfold SFsub. fold (aligned sa ma ea (Z.min ea eb)) (aligned sb mb eb (Z.min ea eb)).
set (X := aligned sa ma ea (Z.min ea eb)). set (Y := aligned sb mb eb (Z.min ea eb)).
apply bounded_inv in Va, Vb.
destruct (Z.eq_dec (X - Y) 0) as [E|N].
- rewrite E. simpl. replace (X ?= Y) with Eq; [reflexivity|].
  symmetry. apply Z.compare_eq_iff. lia.
- destruct (binary_normalize_sign (X - Y) (Z.min ea eb) false ltac:(lia) N) as [-> _].
  destruct (Z.compare_spec X Y); destruct (Z.ltb_spec (X - Y) 0); try reflexivity; lia.
Qed.

Local Open Scope float_scope.

(** The sign of a difference of two numbers decides their order. *)
Lemma sub_ltb_zero x y :
is_nan x = false -> is_nan y = false -> (x - y <? 0) = (x <? y).
Proof.
intros Hx Hy.
rewrite !FloatAxioms.ltb_spec, FloatAxioms.sub_spec.
rewrite <- (SFsub_negative (Prim2SF x) (Prim2SF y))
  by auto using Prim2SF_valid, Prim2SF_not_nan.
change (Prim2SF 0) with (S754_zero false).
destruct (SF64sub _ _) as [[]|[]| |[] ? ?]; reflexivity.
Qed.

(** Transitivity, by cases on the three numbers. *)
Ltac cmp_cases :=
  repeat match goal with
  | |- context [(?a ?= ?b)%Z] => destruct (Z.compare_spec a b)
  | |- context [(?a ?= ?b)%positive] => destruct (Pos.compare_spec a b)
  end.

Ltac SF_trans :=
  unfold SFltb, SFleb;
  intros a b c;
  destruct a as [sa|sa| |sa ma ea], b as [sb|sb| |sb mb eb],
    c as [sc|sc| |sc mc ec]; cbn [SFcompare];
    try destruct sa; try destruct sb; try destruct sc;
    try (intros; reflexivity); try (intros H; discriminate H);
    try (intros _ H; discriminate H);
    change (PosDef.Pos.compare_cont Eq) with Pos.compare;
    cmp_cases; cbn [CompOpp];
    try (intros; reflexivity); try (intros H; discriminate H);
    try (intros _ H; discriminate H); try lia.

Lemma SFltb_leb_trans : forall a b c,
  SFltb a b = true -> SFleb b c = true -> SFltb a c = true.
Proof. SF_trans. Qed.

Lemma SFleb_ltb_trans : forall a b c,
  SFleb a b = true -> SFltb b c = true -> SFltb a c = true.
Proof. SF_trans. Qed.

Lemma SFleb_trans : forall a b c,
  SFleb a b = true -> SFleb b c = true -> SFleb a c = true.
Proof. SF_trans. Qed.

Lemma ltb_leb_trans x y z :
  (x <? y) = true -> (y <=? z) = true -> (x <? z) = true.
Proof.
  rewrite !FloatAxioms.ltb_spec, FloatAxioms.leb_spec. apply SFltb_leb_trans.
Qed.

Lemma leb_ltb_trans x y z :
  (x <=? y) = true -> (y <? z) = true -> (x <? z) = true.
Proof.
  rewrite !FloatAxioms.ltb_spec, FloatAxioms.leb_spec. apply SFleb_ltb_trans.
Qed.

Lemma leb_trans x y z :
  (x <=? y) = true -> (y <=? z) = true -> (x <=? z) = true.
Proof. rewrite !FloatAxioms.leb_spec. apply SFleb_trans. Qed.

Lemma ltb_trans x y z :
  (x <? y) = true -> (y <? z) = true -> (x <? z) = true.
Proof. intros H1 H2. eapply ltb_leb_trans; eauto. now apply ltb_leb. Qed.

Lemma ltb_irrefl x : (x <? x) = false.
Proof.
  destruct (x <? x) eqn:E; auto.
  apply ltb_fcompare in E.
  pose proof (fcompare_antisym x x) as A. rewrite E in A. discriminate A.
Qed.

Lemma leb_not_ltb x y : (x <=? y) = true -> (y <? x) = false.
Proof.
  intros H. destruct (y <? x) eqn:E; auto.
  pose proof (ltb_leb_trans _ _ _ E H) as C. now rewrite ltb_irrefl in C.
Qed.

Lemma ltb_not_leb x y : (x <? y) = true -> (y <=? x) = false.
Proof.
  intros H. destruct (y <=? x) eqn:E; auto.
  pose proof (ltb_leb_trans _ _ _ H E) as C. now rewrite ltb_irrefl in C.
Qed.

End FloatFacts.


(** ** Sorting with a comparator *)

Section SortMembers.
Context {A : Type} (cmp : A -> A -> float).

Lemma in_insert z x l : In z (JS.insert cmp x l) <-> z = x \/ In z l.
Proof.
  induction l as [|y l IH]; simpl.
  - intuition auto.
  - destruct (cmp x y <? 0); simpl; rewrite ?IH; intuition auto.
Qed.

Lemma in_fold_insert z l : forall acc,
  In z (fold_left (fun acc x => JS.insert cmp x acc) l acc) <-> In z l \/ In z acc.
Proof.
  induction l as [|x l IH]; intros acc; simpl.
  - intuition auto.
  - rewrite IH, in_insert. intuition auto.
Qed.

Lemma in_sort z l : In z (JS.sort cmp l) <-> In z l.
Proof. unfold JS.sort. rewrite in_fold_insert. simpl. intuition auto. Qed.

Lemma insert_perm x l : Permutation (x :: l) (JS.insert cmp x l).
Proof.
  induction l as [|y l IH]; simpl; auto.
  destruct (cmp x y <? 0); auto.
  eapply perm_trans; [apply perm_swap|]. now constructor.
Qed.

Lemma sort_perm l : Permutation l (JS.sort cmp l).
Proof.
  unfold JS.sort.
  enough (H : forall acc,
             Permutation (l ++ acc)
               (fold_left (fun acc x => JS.insert cmp x acc) l acc)).
  { specialize (H []). now rewrite app_nil_r in H. }
  induction l as [|x l IH]; intros acc; simpl; auto.
  eapply perm_trans; [|apply IH].
  eapply perm_trans; [apply Permutation_middle|].
  apply Permutation_app_head, insert_perm.
Qed.

End SortMembers.

Section SortOrder.
Context {A : Type} (cmp : A -> A -> float) (R : A -> A -> Prop).

Lemma insert_hd y x l :
  R y x -> HdRel R y l -> HdRel R y (JS.insert cmp x l).
Proof.
  intros Hyx H. destruct l as [|z l]; simpl.
  - now constructor.
  - destruct (cmp x z <? 0); constructor; auto.
    now inversion H.
Qed.

Lemma insert_sorted x l :
  Sorted R l -> (forall y, In y l -> placed cmp R x y) ->
  Sorted R (JS.insert cmp x l).
Proof.
  induction l as [|y l IH]; intros S P; simpl.
  - repeat constructor.
  - inversion S as [|? ? S' H]; subst.
    destruct (P y (or_introl eq_refl)) as [Plt Pge].
    destruct (cmp x y <? 0).
    + constructor; auto.
    + constructor.
      * apply IH; auto. intros z Hz. apply P. now right.
      * apply insert_hd; auto.
Qed.

Lemma fold_insert_sorted l : forall acc,
  Sorted R acc ->
  (forall x y, In x l -> In y acc -> placed cmp R x y) ->
  ForallOrdPairs (fun y x => placed cmp R x y) l ->
  Sorted R (fold_left (fun acc x => JS.insert cmp x acc) l acc).
Proof.
  induction l as [|x l IH]; intros acc S P F; simpl; auto.
  inversion F as [|? ? Fx Fl]; subst.
  apply IH; auto.
  - apply insert_sorted; auto. intros y Hy. apply P; simpl; auto.
  - intros x' y Hx' Hy. apply in_insert in Hy. destruct Hy as [->|Hy].
    + rewrite Forall_forall in Fx. now apply Fx.
    + apply P; simpl; auto.
Qed.

(** The result of [sort] is ordered as soon as every element can be placed
    against the elements in front of it. *)
Lemma sort_sorted l :
  ForallOrdPairs (fun y x => placed cmp R x y) l -> Sorted R (JS.sort cmp l).
Proof.
  intros F. apply fold_insert_sorted; auto.
  intros x y _ [].
Qed.

Lemma sort_sorted_all l :
  (forall x y, In x l -> In y l -> placed cmp R x y) -> Sorted R (JS.sort cmp l).
Proof.
  intros H. apply sort_sorted.
  apply ForallPairs_ForallOrdPairs. intros y x Hy Hx. now apply H.
Qed.

End SortOrder.

(** ** The loops of the ranker *)

Lemma in_collect {A B : Type} (f : A -> option B) y l :
  In y (collect f l) <-> exists x, In x l /\ f x = Some y.
Proof.
  induction l as [|a l IH]; simpl.
  - split; [intros [] | intros (x & [] & _)].
  - destruct (f a) as [b|] eqn:E; simpl; rewrite IH; split.
    + intros [->|(x & Hx & Hf)]; eauto.
    + intros (x & [->|Hx] & Hf); [left; congruence | eauto].
    + intros (x & Hx & Hf); eauto.
    + intros (x & [->|Hx] & Hf); [congruence | eauto].
Qed.

Lemma in_candidates s optionData atmStrike maxValuePercent strikes :
  In s (candidates optionData atmStrike maxValuePercent strikes) ->
  exists type gap baseStrike,
    In baseStrike strikes /\
    candidate optionData atmStrike maxValuePercent type gap baseStrike = Some s.
Proof.
  unfold candidates. intros H.
  apply in_flat_map in H. destruct H as (type & _ & H).
  apply in_flat_map in H. destruct H as (gap & _ & H).
  apply in_collect in H. destruct H as (b & Hb & H). eauto.
Qed.

(** What a pushed strategy went through. *)
Lemma candidate_inv optionData atmStrike maxValuePercent type gap baseStrike s :
  candidate optionData atmStrike maxValuePercent type gap baseStrike = Some s ->
  let '(lowerStrike, middleStrike, upperStrike) := legs type baseStrike gap in
  exists result,
    calculateButterflyRate lowerStrike middleStrike upperStrike optionData type
      = Some result /\
    match type with
    | CALL => lowerStrike <? atmStrike
    | PUT => atmStrike <? upperStrike
    end = false /\
    has_strike optionData lowerStrike = true /\
    has_strike optionData middleStrike = true /\
    has_strike optionData upperStrike = true /\
    (0 <? ButterflyResult.rate result) = true /\
    (ButterflyResult.rate result <? ButterflyResult.firstLegPremium result * 0.5)
      = true /\
    s = ButterflyStrategy.mk type (lowerStrike, middleStrike, upperStrike) gap
          (ButterflyResult.firstLegPremium result) (ButterflyResult.rate result)
          (calculateValuePercent (ButterflyResult.rate result)
             (ButterflyResult.firstLegPremium result))
          (JS.Math_round (JS.Math_abs (lowerStrike - atmStrike) / 50))
          (getRecommendation
             (calculateValuePercent (ButterflyResult.rate result)
                (ButterflyResult.firstLegPremium result)))
          (JS.Math_abs (lowerStrike - atmStrike) <=? 100) (gap <=? 100) /\
    (ButterflyStrategy.valuePercent s <=? maxValuePercent) = true /\
    (0 <? ButterflyStrategy.valuePercent s) = true.
Proof.
  unfold candidate.
  destruct (legs type baseStrike gap) as [[lo mi] up].
  destruct (match type with CALL => lo <? atmStrike | PUT => atmStrike <? up end)
    eqn:Hatm; [discriminate|].
  destruct (has_strike optionData lo) eqn:Hlo; [|discriminate].
  destruct (has_strike optionData mi) eqn:Hmi; [|discriminate].
  destruct (has_strike optionData up) eqn:Hup; [|discriminate].
  simpl negb. cbv iota.
  destruct (calculateButterflyRate lo mi up optionData type) as [result|];
    [|discriminate].
  destruct (0 <? ButterflyResult.rate result) eqn:Hpos; [|discriminate].
  destruct (ButterflyResult.rate result
            <? ButterflyResult.firstLegPremium result * 0.5) eqn:Hhalf;
    [|discriminate].
  simpl andb. cbv iota.
  destruct (calculateValuePercent _ _ <=? maxValuePercent) eqn:Hmax; [|discriminate].
  destruct (0 <? calculateValuePercent _ _) eqn:Hv; [|discriminate].
  simpl andb. cbv iota.
  intros E. injection E as <-.
  exists result. simpl. repeat split; auto.
Qed.

Lemma findBestStrategies_inv rawOptionData spotPrice maxValuePercent s :
  In s (findBestStrategies rawOptionData spotPrice maxValuePercent) ->
  exists first rest,
    JS.sort ascending
      (positive_strikes (transformOptionDataForButterfly rawOptionData))
      = first :: rest /\
    atmStrike_of rawOptionData spotPrice = Some (atm_of spotPrice first rest) /\
    In s (candidates (transformOptionDataForButterfly rawOptionData)
            (atm_of spotPrice first rest) maxValuePercent (first :: rest)).
Proof.
  unfold findBestStrategies, atmStrike_of.
  destruct (transformOptionDataForButterfly rawOptionData) as [|r od] eqn:E;
    [intros []|].
  destruct (JS.truthy spotPrice); simpl negb; cbv iota; [|intros []].
  destruct (JS.sort ascending (positive_strikes (r :: od))) as [|first rest];
    [intros []|].
  intros H. apply in_sort in H. exists first, rest. auto.
Qed.


(** ** Strikes and the at-the-money strike *)

Lemma eqb_refl x : is_nan x = false -> (x =? x) = true.
Proof. unfold is_nan. now destruct (x =? x). Qed.

Lemma in_positive_strikes x optionData :
  In x (positive_strikes optionData) ->
  (0 <? x) = true /\ exists r, In r optionData /\ strike_price r = JS.Num x.
Proof.
  unfold positive_strikes. intros H.
  apply in_map_iff in H. destruct H as (r & <- & H).
  apply filter_In in H. destruct H as [Hr Hpos].
  unfold JS.gt_zero in Hpos. split; auto.
  exists r. split; auto.
  destruct (strike_price r) as [| |y]; simpl in *; try reflexivity;
    vm_compute in Hpos; discriminate Hpos.
Qed.

Lemma closer_cases spotPrice prev curr :
  closer spotPrice prev curr = prev \/ closer spotPrice prev curr = curr.
Proof. unfold closer. destruct (_ <? _); auto. Qed.

Lemma atm_of_in spotPrice rest : forall first,
  In (atm_of spotPrice first rest) (first :: rest).
Proof.
  unfold atm_of. induction rest as [|x rest IH]; intros first; simpl.
  - auto.
  - destruct (closer_cases spotPrice first x) as [-> | ->].
    + destruct (IH first) as [<-|H]; simpl in *; auto.
    + right. apply IH.
Qed.

(** Every strike the ranker works with, the at-the-money strike included,
    is a positive number. *)
Lemma ranker_strikes rawOptionData spotPrice first rest :
  JS.sort ascending
    (positive_strikes (transformOptionDataForButterfly rawOptionData))
  = first :: rest ->
  (forall x, In x (first :: rest) ->
     In x (positive_strikes (transformOptionDataForButterfly rawOptionData)))
  /\ In (atm_of spotPrice first rest)
        (positive_strikes (transformOptionDataForButterfly rawOptionData)).
Proof.
  intros E.
  assert (H : forall x, In x (first :: rest) ->
     In x (positive_strikes (transformOptionDataForButterfly rawOptionData))).
  { intros x Hx. rewrite <- E in Hx. now apply in_sort in Hx. }
  split; auto. apply H, atm_of_in.
Qed.

(** ** Classification *)

(** C2: [getDetailedRecommendation] is defined on every triple and returns
    the label of the first rule of the priority table that applies, [AVOID]
    when none does; a value percentage of 30 gives [EXIT] whatever the
    distance and the gap. *)
Theorem getDetailedRecommendation_priority :
  forall valuePercent distanceFromATM gap,
    getDetailedRecommendation valuePercent distanceFromATM gap
    = first_match (priority_table valuePercent distanceFromATM gap) AVOID
    /\ getDetailedRecommendation 30 distanceFromATM gap = EXIT.
Proof.
  intros v d g. split; [|reflexivity].
  unfold getDetailedRecommendation, priority_table, nearATM, goodGap.
  cbn [first_match].
  destruct (25 <? v), (20 <? v), (v <=? 10), (v <=? 15), (v <=? 20),
    (d <=? 2), (g <=? 100); reflexivity.
Qed.

(** C10 fails for a value percentage that is not a number: every comparison
    is false and the last branch is taken. *)
Lemma getDetailedRecommendation_nan_avoid :
  getDetailedRecommendation nan 0 50 = AVOID.
Proof. reflexivity. Qed.

(** C10, amended: for a value percentage that is a number (not NaN) the
    label is never [AVOID]; with [valuePercent <= 20] it is one of ENTRY,
    PROFIT_BOOKING, SCALE, HOLD, CHAIN_WARNING, and with [valuePercent > 20]
    it is EXIT or VALUE_BREACH. *)
Theorem getDetailedRecommendation_never_avoid :
  forall valuePercent distanceFromATM gap,
    is_nan valuePercent = false ->
    getDetailedRecommendation valuePercent distanceFromATM gap <> AVOID
    /\ ((valuePercent <=? 20) = true ->
        In (getDetailedRecommendation valuePercent distanceFromATM gap)
           [ENTRY; PROFIT_BOOKING; SCALE; HOLD; CHAIN_WARNING])
    /\ ((20 <? valuePercent) = true ->
        In (getDetailedRecommendation valuePercent distanceFromATM gap)
           [EXIT; VALUE_BREACH]).
Proof.
  intros v d g Hv.
  assert (H20 : (20 <? v) = false -> (v <=? 20) = true)
    by (apply FloatFacts.ltb_false_leb; auto).
  assert (H25 : (25 <? v) = true -> (v <=? 20) = false).
  { intros H. destruct (v <=? 20) eqn:E; auto.
    pose proof (FloatFacts.ltb_leb_trans _ _ _ H E) as C.
    vm_compute in C. discriminate C. }
  unfold getDetailedRecommendation.
  destruct (25 <? v) eqn:E25.
  { rewrite (H25 eq_refl). repeat split; try discriminate; simpl; auto. }
  destruct (20 <? v) eqn:E20.
  { rewrite (FloatFacts.ltb_not_leb _ _ E20).
    repeat split; try discriminate; simpl; auto. }
  rewrite (H20 eq_refl).
  destruct (v <=? 10), (v <=? 15), (d <=? 2), (g <=? 100); simpl;
    repeat split; try discriminate; intuition auto.
Qed.

Lemma getDetailedRecommendation_never_avoid_witness :
  getDetailedRecommendation 12 1 50 <> AVOID.
Proof.
  apply (getDetailedRecommendation_never_avoid 12 1 50). reflexivity.
Defined.


(** ** The ranked shortlist *)

(** Everything [findBestStrategies] returns was pushed by the loop body. *)
Lemma findBestStrategies_candidate rawOptionData spotPrice maxValuePercent s :
  In s (findBestStrategies rawOptionData spotPrice maxValuePercent) ->
  exists first rest type gap baseStrike,
    JS.sort ascending
      (positive_strikes (transformOptionDataForButterfly rawOptionData))
      = first :: rest /\
    atmStrike_of rawOptionData spotPrice = Some (atm_of spotPrice first rest) /\
    In baseStrike (first :: rest) /\
    candidate (transformOptionDataForButterfly rawOptionData)
      (atm_of spotPrice first rest) maxValuePercent type gap baseStrike = Some s.
Proof.
  intros H. apply findBestStrategies_inv in H.
  destruct H as (first & rest & E & A & H).
  apply in_candidates in H. destruct H as (type & gap & b & Hb & H).
  exists first, rest, type, gap, b. auto.
Qed.

(** C3: a CALL strategy of the shortlist has its lower strike at or above
    the at-the-money strike, a PUT strategy has its upper strike at or below
    it; a CALL strategy whose lower strike is below the at-the-money strike
    is never listed. *)
Theorem findBestStrategies_atm_or_otm :
  forall rawOptionData spotPrice maxValuePercent s,
    In s (findBestStrategies rawOptionData spotPrice maxValuePercent) ->
    exists atmStrike,
      atmStrike_of rawOptionData spotPrice = Some atmStrike /\
      match ButterflyStrategy.type s with
      | CALL => (atmStrike <=? lower_strike s) = true
                /\ (lower_strike s <? atmStrike) = false
      | PUT => (upper_strike s <=? atmStrike) = true
               /\ (atmStrike <? upper_strike s) = false
      end.
Proof.
  intros raw spot mvp s H.
  apply findBestStrategies_candidate in H.
  destruct H as (first & rest & type & gap & b & E & A & Hb & H).
  exists (atm_of spot first rest). split; auto.
  destruct (ranker_strikes raw spot first rest E) as [Hall Hatm].
  apply in_positive_strikes in Hatm. destruct Hatm as [Hatm _].
  apply Hall, in_positive_strikes in Hb. destruct Hb as [Hb _].
  apply FloatFacts.ltb_not_nan in Hatm, Hb.
  apply candidate_inv in H.
  destruct type; cbn [legs] in H;
    destruct H as (result & _ & Hguard & _ & _ & _ & _ & _ & -> & _);
    cbn [ButterflyStrategy.type lower_strike upper_strike
         ButterflyStrategy.strikes fst snd];
    split; auto; apply FloatFacts.ltb_false_leb; tauto.
Qed.

Lemma findBestStrategies_atm_or_otm_witness :
  exists atmStrike,
    atmStrike_of sample_feed 24010 = Some atmStrike /\
    (atmStrike <=? lower_strike sample_strategy) = true
    /\ (lower_strike sample_strategy <? atmStrike) = false.
Proof.
  apply (findBestStrategies_atm_or_otm sample_feed 24010 20 sample_strategy).
  vm_compute. left. reflexivity.
Defined.

(** C4: a listed strategy has a positive rate below half of its reference
    premium and a value percentage in (0, maxValuePercent]; the function
    returns a list for every input, so rejected combinations are dropped and
    nothing is reported. *)
Theorem findBestStrategies_sane :
  forall rawOptionData spotPrice maxValuePercent s,
    In s (findBestStrategies rawOptionData spotPrice maxValuePercent) ->
    (0 <? ButterflyStrategy.butterflyRate s) = true
    /\ (ButterflyStrategy.butterflyRate s
        <? ButterflyStrategy.firstLegPremium s * 0.5) = true
    /\ (0 <? ButterflyStrategy.valuePercent s) = true
    /\ (ButterflyStrategy.valuePercent s <=? maxValuePercent) = true.
Proof.
  intros raw spot mvp s H.
  apply findBestStrategies_candidate in H.
  destruct H as (first & rest & type & gap & b & _ & _ & _ & H).
  apply candidate_inv in H.
  destruct (legs type b gap) as [[lo mi] up].
  destruct H as (result & _ & _ & _ & _ & _ & Hpos & Hhalf & E & Hmax & Hv).
  rewrite E in *. cbn [ButterflyStrategy.butterflyRate
    ButterflyStrategy.firstLegPremium ButterflyStrategy.valuePercent] in *.
  auto.
Qed.

Lemma findBestStrategies_sane_witness :
  (0 <? ButterflyStrategy.butterflyRate sample_strategy) = true
  /\ (ButterflyStrategy.butterflyRate sample_strategy
      <? ButterflyStrategy.firstLegPremium sample_strategy * 0.5) = true
  /\ (0 <? ButterflyStrategy.valuePercent sample_strategy) = true
  /\ (ButterflyStrategy.valuePercent sample_strategy <=? 20) = true.
Proof.
  apply (findBestStrategies_sane sample_feed 24010 20 sample_strategy).
  vm_compute. left. reflexivity.
Defined.

(** The value percentage of a listed strategy is the one computed from its
    rate and reference premium. *)
Lemma findBestStrategies_valuePercent rawOptionData spotPrice maxValuePercent s :
  In s (findBestStrategies rawOptionData spotPrice maxValuePercent) ->
  ButterflyStrategy.valuePercent s
  = calculateValuePercent (ButterflyStrategy.butterflyRate s)
      (ButterflyStrategy.firstLegPremium s).
Proof.
  intros H.
  apply findBestStrategies_candidate in H.
  destruct H as (first & rest & type & gap & b & _ & _ & _ & H).
  apply candidate_inv in H.
  destruct (legs type b gap) as [[lo mi] up].
  destruct H as (result & _ & _ & _ & _ & _ & _ & _ & -> & _).
  reflexivity.
Qed.

Lemma listed_value_positive rawOptionData spotPrice maxValuePercent s :
  In s (findBestStrategies rawOptionData spotPrice maxValuePercent) ->
  (0 <? ButterflyStrategy.valuePercent s) = true.
Proof.
  intros H.
  apply findBestStrategies_candidate in H.
  destruct H as (first & rest & type & gap & b & _ & _ & _ & H).
  apply candidate_inv in H.
  destruct (legs type b gap) as [[lo mi] up].
  destruct H as (result & _ & _ & _ & _ & _ & _ & _ & _ & _ & Hv).
  exact Hv.
Qed.

(** C8: with a reference premium of zero, or any premium that is not
    positive, [calculateValuePercent] returns 0 without dividing, and no
    strategy with such a premium is listed by [findBestStrategies]. *)
Theorem zero_premium_excluded :
  forall butterflyRate firstLegPremium,
    (firstLegPremium <=? 0) = true ->
    calculateValuePercent butterflyRate firstLegPremium = 0
    /\ forall rawOptionData spotPrice maxValuePercent s,
         In s (findBestStrategies rawOptionData spotPrice maxValuePercent) ->
         ButterflyStrategy.firstLegPremium s <> firstLegPremium.
Proof.
  intros r f Hf. split.
  - unfold calculateValuePercent. now rewrite Hf.
  - intros raw spot mvp s H E.
    pose proof (findBestStrategies_valuePercent _ _ _ _ H) as Hv.
    apply listed_value_positive in H. rename H into Hpos.
    rewrite Hv, E in Hpos. unfold calculateValuePercent in Hpos.
    rewrite Hf in Hpos. vm_compute in Hpos. discriminate Hpos.
Qed.

Lemma zero_premium_excluded_witness :
  calculateValuePercent 5 0 = 0
  /\ forall rawOptionData spotPrice maxValuePercent s,
       In s (findBestStrategies rawOptionData spotPrice maxValuePercent) ->
       ButterflyStrategy.firstLegPremium s <> 0.
Proof. apply (zero_premium_excluded 5 0). reflexivity. Defined.

(** C7: [findBestTrades] returns at most 8 strategies, each with a value
    percentage of at most 15, a distance of at most 2 and a gap of at most
    100. *)
Theorem findBestTrades_bounds :
  forall rawOptionData spotPrice,
    (List.length (findBestTrades rawOptionData spotPrice) <= 8)%nat
    /\ forall s, In s (findBestTrades rawOptionData spotPrice) ->
         (ButterflyStrategy.valuePercent s <=? 15) = true
         /\ (ButterflyStrategy.distanceFromATM s <=? 2) = true
         /\ (ButterflyStrategy.gap s <=? 100) = true.
Proof.
  intros raw spot. unfold findBestTrades. split.
  - apply firstn_le_length.
  - intros s H.
    assert (H' : In s (filter best_trade (findBestStrategies raw spot 15))).
    { rewrite <- (firstn_skipn 8 (filter _ _)). apply in_or_app. now left. }
    apply filter_In in H'. destruct H' as [_ Hb].
    unfold best_trade in Hb.
    apply andb_prop in Hb. destruct Hb as [Hb Hg].
    apply andb_prop in Hb. destruct Hb as [Hv Hd]. auto.
Qed.

Lemma findBestTrades_bounds_witness :
  (ButterflyStrategy.valuePercent sample_strategy <=? 15) = true
  /\ (ButterflyStrategy.distanceFromATM sample_strategy <=? 2) = true
  /\ (ButterflyStrategy.gap sample_strategy <=? 100) = true.
Proof.
  apply (findBestTrades_bounds sample_feed 24010).
  vm_compute. left. reflexivity.
Defined.


(** ** The pricer *)

(** Two doubles that the comparison tells apart are different. *)
Lemma eqb_false_neq x y : (x =? y) = false -> (y =? y) = true -> x <> y.
Proof. intros H R E. rewrite E, R in H. discriminate H. Qed.

(** C1 fails on its worked example: the rate is 115 and the reference
    premium 100, but the value percentage computed from them is not 115. *)
Lemma worked_example_not_115 :
  calculateButterflyRate 24000 24050 24100 worked_example CALL
  = Some (ButterflyResult.mk 115 100)
  /\ calculateValuePercent 115 100 <> 115.
Proof.
  split.
  - vm_compute. reflexivity.
  - apply eqb_false_neq; vm_compute; reflexivity.
Qed.

(** C1, amended: when the three strikes are found and the three prices
    (ask, else last traded price, for the bought legs; bid, else last traded
    price, for the sold leg) are present, the rate is
    [lowerAsk - 2 * middleBid + upperAsk] and the reference premium is
    [lowerAsk] for CALL, [upperAsk] for PUT.  On the worked example this is
    rate 115 and premium 100, and the value percentage is 115/100*100 in
    double arithmetic: the double next below 115. *)
Theorem calculateButterflyRate_formula :
  forall optionData type lowerStrike middleStrike upperStrike
         lowerOption middleOption upperOption lowerAsk middleBid upperAsk,
    find_strike optionData lowerStrike = Some lowerOption ->
    find_strike optionData middleStrike = Some middleOption ->
    find_strike optionData upperStrike = Some upperOption ->
    bought_price lowerOption type = Some lowerAsk ->
    sold_price middleOption type = Some middleBid ->
    bought_price upperOption type = Some upperAsk ->
    calculateButterflyRate lowerStrike middleStrike upperStrike optionData type
    = Some (ButterflyResult.mk
              (lowerAsk - 2 * middleBid + upperAsk)
              (match type with CALL => lowerAsk | PUT => upperAsk end))
    /\ calculateButterflyRate 24000 24050 24100 worked_example CALL
       = Some (ButterflyResult.mk 115 100)
    /\ calculateValuePercent 115 100 = next_down 115.
Proof.
  intros od type lo mi up lowerOption middleOption upperOption la mb ua
         Hlo Hmi Hup Hla Hmb Hua.
  split; [|split; vm_compute; reflexivity].
  unfold calculateButterflyRate.
  rewrite Hlo, Hmi, Hup, Hla, Hmb, Hua. reflexivity.
Qed.

Lemma calculateButterflyRate_formula_witness :
  calculateButterflyRate 24000 24050 24100 worked_example CALL
  = Some (ButterflyResult.mk (100 - 2 * 40 + 95) 100)
  /\ calculateButterflyRate 24000 24050 24100 worked_example CALL
     = Some (ButterflyResult.mk 115 100)
  /\ calculateValuePercent 115 100 = next_down 115.
Proof.
  apply (calculateButterflyRate_formula worked_example CALL 24000 24050 24100
           (call_row 24000 (JS.Num 99) (JS.Num 100) (JS.Num 99.5))
           (call_row 24050 (JS.Num 40) (JS.Num 41) (JS.Num 40.5))
           (call_row 24100 (JS.Num 94) (JS.Num 95) (JS.Num 94.5))
           100 40 95); reflexivity.
Defined.

(** ** The chain builder *)

Lemma find_strike_some optionData x :
  (exists r, In r optionData /\ strike_price r = JS.Num x) ->
  is_nan x = false ->
  exists o, find_strike optionData x = Some o.
Proof.
  intros (r & Hr & E) Hx. unfold find_strike.
  destruct (find _ optionData) as [o|] eqn:F; eauto.
  pose proof (find_none _ _ F r Hr) as N. cbv beta in N.
  rewrite E in N. simpl in N. rewrite (eqb_refl x Hx) in N. discriminate N.
Qed.

(** A row of the chain matrix is built from a positive strike of the
    normalized chain. *)
Lemma calculateButterflyChain_inv rawOptionData spotPrice type gaps d :
  In d (calculateButterflyChain rawOptionData spotPrice type gaps) ->
  exists atmStrike strike,
    In strike (positive_strikes (transformOptionDataForButterfly rawOptionData))
    /\ d = chain_row (transformOptionDataForButterfly rawOptionData) type gaps
             atmStrike strike.
Proof.
  unfold calculateButterflyChain.
  destruct (transformOptionDataForButterfly rawOptionData) as [|r od];
    [intros []|].
  destruct (JS.sort _ (positive_strikes (r :: od))) as [|first rest] eqn:E;
    [intros []|].
  intros H. apply in_map_iff in H. destruct H as (strike & <- & H).
  exists (atm_of spotPrice first rest), strike. split; auto.
  rewrite <- E in H. now apply in_sort in H.
Qed.

(** C5 fails when one side of the quote is missing: with a bid of 10, no
    ask and a last traded price of 7 the premium is 5, where the rule of the
    specification gives 7. *)
Lemma one_sided_premium :
  map ButterflyData.premium
    (calculateButterflyChain one_sided_chain 24000 CALL default_gaps) = [5]
  /\ map (fun o => claimed_premium (call_bid o) (call_ask o) (call_ltp o))
       (transformOptionDataForButterfly one_sided_chain) = [7].
Proof. split; vm_compute; reflexivity. Qed.

(** C5, amended: the premium of a strike is the mid price [(bid + ask) / 2],
    a missing bid or ask counting as 0, whenever that mid price is a number
    other than zero; otherwise it is the last traded price of the side when
    that is a number other than zero, and 0 when it is not.  In particular
    it is the mid price when bid and ask are both present and do not add up
    to zero. *)
Theorem chain_premium :
  forall rawOptionData spotPrice type gaps d,
    In d (calculateButterflyChain rawOptionData spotPrice type gaps) ->
    exists o,
      find_strike (transformOptionDataForButterfly rawOptionData)
        (ButterflyData.strike d) = Some o
      /\ let b := JS.toNumber (side_bid type o ?? JS.Num 0) in
         let a := JS.toNumber (side_ask type o ?? JS.Num 0) in
         let mid := (b + a) / 2 in
         ButterflyData.bid d = b /\ ButterflyData.ask d = a
         /\ (JS.truthy mid = true -> ButterflyData.premium d = mid)
         /\ (JS.truthy mid = false -> JS.truthy_value (side_ltp type o) = true ->
             JS.Num (ButterflyData.premium d) = side_ltp type o)
         /\ (JS.truthy mid = false -> JS.truthy_value (side_ltp type o) = false ->
             ButterflyData.premium d = 0)
         /\ (forall x y, side_bid type o = JS.Num x -> side_ask type o = JS.Num y ->
             JS.truthy ((x + y) / 2) = true ->
             ButterflyData.premium d = (x + y) / 2).
Proof.
  intros raw spot type gaps d H.
  apply calculateButterflyChain_inv in H.
  destruct H as (atm & strike & Hs & ->).
  apply in_positive_strikes in Hs. destruct Hs as [Hpos Hr].
  apply FloatFacts.ltb_not_nan in Hpos. destruct Hpos as [_ Hnan].
  destruct (find_strike_some _ _ Hr Hnan) as [o Ho].
  exists o. unfold chain_row. cbn [ButterflyData.strike ButterflyData.bid
    ButterflyData.ask ButterflyData.premium].
  rewrite Ho. split; auto.
  assert (Hb : match type with
               | CALL => call_bid o ?? JS.Num 0
               | PUT => put_bid o ?? JS.Num 0
               end = side_bid type o ?? JS.Num 0) by now destruct type.
  assert (Ha : match type with
               | CALL => call_ask o ?? JS.Num 0
               | PUT => put_ask o ?? JS.Num 0
               end = side_ask type o ?? JS.Num 0) by now destruct type.
  assert (Hl : match type with CALL => call_ltp o | PUT => put_ltp o end
               = side_ltp type o) by now destruct type.
  rewrite Hb, Ha, Hl. cbv zeta. unfold premium_of.
  repeat split; auto.
  - intros ->. reflexivity.
  - intros -> T. rewrite T.
    destruct (side_ltp type o); simpl in *; try discriminate; reflexivity.
  - intros -> ->. reflexivity.
  - intros x y -> -> T. simpl. now rewrite T.
Qed.

Lemma chain_premium_witness :
  exists o,
    find_strike (transformOptionDataForButterfly one_sided_chain) 24000 = Some o
    /\ let b := JS.toNumber (side_bid CALL o ?? JS.Num 0) in
       let a := JS.toNumber (side_ask CALL o ?? JS.Num 0) in
       let mid := (b + a) / 2 in
       10 = b /\ 0 = a
       /\ (JS.truthy mid = true -> 5 = mid)
       /\ (JS.truthy mid = false -> JS.truthy_value (side_ltp CALL o) = true ->
           JS.Num 5 = side_ltp CALL o)
       /\ (JS.truthy mid = false -> JS.truthy_value (side_ltp CALL o) = false ->
           5 = 0)
       /\ (forall x y, side_bid CALL o = JS.Num x -> side_ask CALL o = JS.Num y ->
           JS.truthy ((x + y) / 2) = true -> 5 = (x + y) / 2).
Proof.
  apply (chain_premium one_sided_chain 24000 CALL default_gaps
           (ButterflyData.mk 24000 5 10 0 true [])).
  vm_compute. left. reflexivity.
Defined.


(** ** Results that are numbers *)

Module NotNaN.

Import FloatFacts.

Lemma is_nan_false x : Prim2SF x <> S754_nan -> is_nan x = false.
Proof.
  intros H. destruct (is_nan x) eqn:E; auto.
  apply is_nan_spec in E. contradiction.
Qed.

Lemma is_infinity_spec x :
  is_infinity x = true <-> exists s, Prim2SF x = S754_infinity s.
Proof.
  unfold is_infinity. rewrite FloatAxioms.eqb_spec, FloatAxioms.abs_spec.
  replace (Prim2SF infinity) with (S754_infinity false) by reflexivity.
  destruct (Prim2SF x) as [s|s| |s m e]; simpl; split;
    try discriminate; eauto; intros [s' H]; discriminate H.
Qed.

(** A number that is neither NaN nor infinite is a zero or a finite value. *)
Lemma finite_spec x :
  is_nan x = false -> is_infinity x = false -> SFfinite (Prim2SF x) = true.
Proof.
  intros Hn Hi. apply Prim2SF_not_nan in Hn.
  destruct (Prim2SF x) eqn:E; simpl; auto; try contradiction.
  assert (is_infinity x = true) by (apply is_infinity_spec; eauto). congruence.
Qed.

(** An infinite number is only equal to an infinite number. *)
Lemma eqb_is_infinity x y :
  (x =? y) = true -> is_infinity x = false -> is_infinity y = false.
Proof.
  intros E Hx. destruct (is_infinity y) eqn:Hy; auto.
  apply is_infinity_spec in Hy. destruct Hy as [s Hy].
  rewrite FloatAxioms.eqb_spec, Hy in E. unfold SFeqb in E.
  assert (is_infinity x = true); [|congruence].
  apply is_infinity_spec.
  destruct (Prim2SF x) as [s'|s'| |s' m e]; simpl in E; eauto;
    try destruct s'; try destruct s; discriminate E.
Qed.

Local Open Scope Z_scope.

Lemma shr_fexp_nonneg m e l :
  0 <= m -> 0 <= shr_m (fst (shr_fexp prec emax m e l)).
Proof.
  intros Hm. unfold shr_fexp, shr.
  destruct (fexp prec emax (Zdigits2 m + e) - e) as [|p|p]; simpl fst;
    rewrite ?shr_m_iter, ?shr_m_record_of_loc;
    rewrite ?shr_m_record_of_loc; auto.
  apply Z.div_pos; lia.
Qed.

(** Rounding a non-negative mantissa never gives NaN. *)
Lemma binary_round_aux_not_nan s m e l :
  0 <= m -> binary_round_aux prec emax s m e l <> S754_nan.
Proof.
  intros Hm. unfold binary_round_aux.
  pose proof (shr_fexp_nonneg m e l Hm) as H1.
  destruct (shr_fexp prec emax m e l) as [r1 e1]. simpl in H1.
  pose proof (round_nearest_even_ge (shr_m r1) (loc_of_shr_record r1)) as Hr.
  pose proof (shr_fexp_nonneg
                (round_nearest_even (shr_m r1) (loc_of_shr_record r1))
                e1 loc_Exact ltac:(lia)) as H2.
  destruct (shr_fexp prec emax _ e1 loc_Exact) as [r2 e2]. simpl in H2.
  destruct (shr_m r2); try lia; try discriminate.
  destruct (e2 <=? emax - prec); discriminate.
Qed.

Lemma binary_normalize_not_nan D e sz :
  binary_normalize prec emax D e sz <> S754_nan.
Proof.
  unfold binary_normalize, binary_round.
  destruct D as [|m|m]; try discriminate;
    destruct (shl_align m e _) as [mz ez];
    apply binary_round_aux_not_nan; lia.
Qed.

Lemma SFsub_not_nan a b :
  SFfinite a = true -> SFfinite b = true -> SF64sub a b <> S754_nan.
Proof.
  unfold SF64sub, SFsub.
  destruct a as [sa|sa| |sa ma ea], b as [sb|sb| |sb mb eb]; simpl;
    intros Ha Hb; try discriminate.
  - destruct sa, sb; discriminate.
  - apply binary_normalize_not_nan.
Qed.

Lemma SFdiv_not_nan a sb mb eb :
  a <> S754_nan -> SF64div a (S754_finite sb mb eb) <> S754_nan.
Proof.
  unfold SF64div, SFdiv.
  destruct a as [sa|sa| |sa ma ea]; intros Ha; try discriminate; try contradiction.
  unfold SFdiv_core_binary.
  set (m' := match _ - _ - _ with Z0 => _ | Zpos _ => _ | Zneg _ => _ end).
  assert (Hm' : 0 <= m').
  { unfold m'. destruct (_ - _ - _); try lia. apply Z.shiftl_nonneg. lia. }
  pose proof (Z_div_mod m' (Zpos mb) ltac:(lia)) as Hd.
  destruct (Z.div_eucl m' (Zpos mb)) as [q r].
  apply binary_round_aux_not_nan. nia.
Qed.

Local Open Scope float_scope.

Lemma sub_not_nan x y :
  is_nan x = false -> is_infinity x = false ->
  is_nan y = false -> is_infinity y = false ->
  is_nan (x - y) = false.
Proof.
  intros. apply is_nan_false. rewrite FloatAxioms.sub_spec.
  apply SFsub_not_nan; now apply finite_spec.
Qed.

Lemma abs_not_nan x : is_nan x = false -> is_nan (abs x) = false.
Proof.
  intros H. apply is_nan_false. rewrite FloatAxioms.abs_spec.
  apply Prim2SF_not_nan in H. destruct (Prim2SF x); simpl; congruence.
Qed.

Lemma div_50_not_nan x : is_nan x = false -> is_nan (x / 50) = false.
Proof.
  intros H. apply is_nan_false. rewrite FloatAxioms.div_spec.
  replace (Prim2SF 50) with (S754_finite false 7036874417766400 (-47))
    by (vm_compute; reflexivity).
  apply SFdiv_not_nan. now apply Prim2SF_not_nan.
Qed.

Lemma of_uint63_not_nan n : is_nan (of_uint63 n) = false.
Proof.
  apply is_nan_false. rewrite FloatAxioms.of_uint63_spec. apply binary_normalize_not_nan.
Qed.

Lemma opp_not_nan x : is_nan x = false -> is_nan (- x) = false.
Proof.
  intros H. apply is_nan_false. rewrite FloatAxioms.opp_spec.
  apply Prim2SF_not_nan in H. destruct (Prim2SF x); simpl; congruence.
Qed.

Lemma of_Z_not_nan n : is_nan (JS.of_Z n) = false.
Proof.
  destruct n; simpl; auto using of_uint63_not_nan, opp_not_nan.
Qed.

(** [Math.round] of a number is a number. *)
Lemma Math_round_not_nan x : is_nan x = false -> is_nan (JS.Math_round x) = false.
Proof.
  intros H. unfold JS.Math_round.
  destruct (Prim2SF x) as [s|s| |s m e]; auto.
  destruct (0 <=? e)%Z; auto.
  destruct (_ =? 0)%Z; [destruct s; reflexivity | apply of_Z_not_nan].
Qed.

(** The distance in 50-point bands between two finite strikes is a number. *)
Lemma distance_not_nan lowerStrike atmStrike :
  is_nan lowerStrike = false -> is_infinity lowerStrike = false ->
  is_nan atmStrike = false -> is_infinity atmStrike = false ->
  is_nan (JS.Math_round (JS.Math_abs (lowerStrike - atmStrike) / 50)) = false.
Proof.
  intros. apply Math_round_not_nan, div_50_not_nan, abs_not_nan.
  now apply sub_not_nan.
Qed.

End NotNaN.


(** ** The normalizer *)

Lemma strike_price_merge_row entry item :
  strike_price (merge_row entry item) = strike_price entry.
Proof. unfold merge_row. now destruct (isCall item). Qed.

Lemma map_update_keys strike f strikeMap :
  (forall e, strike_price (f e) = strike_price e) ->
  map strike_price (map_update strike f strikeMap) = map strike_price strikeMap.
Proof.
  intros Hf. induction strikeMap as [|e m IH]; simpl; auto.
  destruct (JS.same_value_zero _ _); simpl; now rewrite ?Hf, ?IH.
Qed.

(** A round of the loop leaves the keys as they are or adds the strike of
    the row, a number that was not a key yet, at the end. *)
Lemma add_row_keys strikeMap item :
  map strike_price (add_row strikeMap item) = map strike_price strikeMap
  \/ exists strike,
       strike_price item = JS.Num strike /\ is_nan strike = false /\
       map_has strike strikeMap = false /\
       map strike_price (add_row strikeMap item)
       = map strike_price strikeMap ++ [JS.Num strike].
Proof.
  unfold add_row. destruct (strike_price item) as [| |strike] eqn:E; auto.
  destruct (negb (JS.truthy strike) && negb (strike =? 0)) eqn:Skip; auto.
  rewrite map_update_keys by (intros; apply strike_price_merge_row).
  destruct (map_has strike strikeMap) eqn:Has; auto.
  right. exists strike. repeat split; auto.
  - unfold JS.truthy in Skip.
    destruct (strike =? 0) eqn:Z, (is_nan strike) eqn:N; auto; try discriminate.
    unfold is_nan in N. apply FloatFacts.eqb_fcompare in Z.
    destruct (FloatFacts.fcompare_not_nan _ _ _ Z) as [N' _].
    unfold is_nan in N'. congruence.
  - rewrite map_app. reflexivity.
Qed.

Lemma FOP_snoc {A : Type} (R : A -> A -> Prop) l x :
  ForallOrdPairs R l -> Forall (fun a => R a x) l ->
  ForallOrdPairs R (l ++ [x]).
Proof.
  induction 1 as [|a l Ha Hl IH]; intros F; simpl.
  - repeat constructor.
  - inversion F; subst. constructor; auto.
    apply Forall_app. split; auto.
Qed.

Lemma map_has_false strike strikeMap :
  map_has strike strikeMap = false ->
  Forall (fun v => distinct_keys v (JS.Num strike)) (map strike_price strikeMap).
Proof.
  unfold map_has. intros H. apply Forall_map, Forall_forall. intros e He.
  destruct (JS.toNumber (strike_price e) =? strike) eqn:E; auto.
  assert (X : existsb
            (fun e => JS.same_value_zero (JS.toNumber (strike_price e)) strike)
            strikeMap = true).
  { apply existsb_exists. exists e. split; auto.
    unfold JS.same_value_zero. now rewrite E. }
  congruence.
Qed.

Lemma add_row_keys_inv strikeMap item :
  keys_inv (map strike_price strikeMap) ->
  keys_inv (map strike_price (add_row strikeMap item)).
Proof.
  intros [HF HD].
  destruct (add_row_keys strikeMap item) as [-> | (k & _ & Hk & Has & ->)].
  - now split.
  - split.
    + apply Forall_app. split; auto. constructor; auto. now exists k.
    + apply FOP_snoc; auto. now apply map_has_false.
Qed.

Lemma fold_add_row_keys_inv rows : forall strikeMap,
  keys_inv (map strike_price strikeMap) ->
  keys_inv (map strike_price (fold_left add_row rows strikeMap)).
Proof.
  induction rows as [|r rows IH]; intros m H; simpl; auto.
  apply IH, add_row_keys_inv, H.
Qed.

(** The keys of the map are strikes of the rows that went in. *)
Lemma fold_add_row_keys_from rows : forall strikeMap v,
  In v (map strike_price (fold_left add_row rows strikeMap)) ->
  In v (map strike_price strikeMap) \/ In v (map strike_price rows).
Proof.
  induction rows as [|r rows IH]; intros m v H; simpl in *; auto.
  apply IH in H. destruct H as [H|H]; auto.
  destruct (add_row_keys m r) as [E | (k & Ek & _ & _ & E)]; rewrite E in H; auto.
  apply in_app_or in H. destruct H as [H|[<-|[]]]; auto.
Qed.


(** A row of the normalized chain has the strike of a row of the input. *)
Lemma transform_strikes rawData e :
  In e (transformOptionDataForButterfly rawData) ->
  exists r, In r rawData /\ strike_price e = strike_price r.
Proof.
  unfold transformOptionDataForButterfly.
  destruct (already_transformed rawData).
  - intros H. apply filter_In in H. exists e. tauto.
  - intros H. apply in_sort in H.
    apply (in_map strike_price) in H.
    apply fold_add_row_keys_from in H. destruct H as [[]|H].
    apply in_map_iff in H. destruct H as (r & E & H).
    apply filter_In in H. exists r. split; [tauto | congruence].
Qed.

Lemma finite_strikes_transform rawData :
  finite_strikes rawData ->
  finite_strikes (transformOptionDataForButterfly rawData).
Proof.
  intros F e x He E.
  destruct (transform_strikes _ _ He) as (r & Hr & Er).
  apply (F r x Hr). congruence.
Qed.

(** A strike that is not NaN passes the test at the head of the loop. *)
Lemma number_not_skipped strike :
  is_nan strike = false ->
  negb (JS.truthy strike) && negb (strike =? 0) = false.
Proof.
  intros N. unfold JS.truthy. rewrite N. now destruct (strike =? 0).
Qed.

Lemma same_value_zero_refl x : JS.same_value_zero x x = true.
Proof.
  unfold JS.same_value_zero, is_nan. now destruct (x =? x).
Qed.




(** ** Order of the shortlist *)

Lemma has_strike_row optionData x :
  has_strike optionData x = true ->
  exists r y, In r optionData /\ strike_price r = JS.Num y /\ (y =? x) = true.
Proof.
  unfold has_strike. intros H. apply existsb_exists in H.
  destruct H as (r & Hr & E).
  destruct (strike_price r) as [| |y] eqn:S; try discriminate E.
  exists r, y. auto.
Qed.

(** With finite strikes, the value percentage and the distance of a pushed
    strategy are numbers. *)
Lemma candidate_numbers optionData atmStrike maxValuePercent type gap b s :
  finite_strikes optionData ->
  In atmStrike (positive_strikes optionData) ->
  candidate optionData atmStrike maxValuePercent type gap b = Some s ->
  is_nan (ButterflyStrategy.valuePercent s) = false
  /\ is_nan (ButterflyStrategy.distanceFromATM s) = false.
Proof.
  intros F Hatm H. apply candidate_inv in H.
  destruct (legs type b gap) as [[lo mi] up].
  destruct H as (result & _ & _ & Hlo & _ & _ & _ & _ & E & _ & Hv).
  split.
  - now apply FloatFacts.ltb_not_nan in Hv.
  - rewrite E. cbn [ButterflyStrategy.distanceFromATM].
    apply has_strike_row in Hlo. destruct Hlo as (r & y & Hr & Ey & Eq).
    apply in_positive_strikes in Hatm.
    destruct Hatm as (Hpos & ra & Hra & Ea).
    apply NotNaN.distance_not_nan.
    + pose proof Eq as C. apply FloatFacts.eqb_fcompare in C.
      now destruct (FloatFacts.fcompare_not_nan _ _ _ C).
    + apply (NotNaN.eqb_is_infinity y lo Eq). exact (F r y Hr Ey).
    + now apply FloatFacts.ltb_not_nan in Hpos.
    + exact (F ra atmStrike Hra Ea).
Qed.

(** On strategies whose value percentage and distance are numbers, the
    comparator of the final sort decides the ranking order. *)
Lemma ranking_placed x y :
  is_nan (ButterflyStrategy.valuePercent x) = false ->
  is_nan (ButterflyStrategy.distanceFromATM x) = false ->
  is_nan (ButterflyStrategy.valuePercent y) = false ->
  is_nan (ButterflyStrategy.distanceFromATM y) = false ->
  placed by_value_then_distance ranked_before x y.
Proof.
  intros Vx Dx Vy Dy. unfold placed, by_value_then_distance, ranked_before.
  destruct (ButterflyStrategy.valuePercent x =? ButterflyStrategy.valuePercent y)
    eqn:E; cbn [negb].
  - rewrite (FloatFacts.sub_ltb_zero _ _ Dx Dy). split; intros L.
    + right. split; auto. now apply FloatFacts.ltb_leb.
    + right. split.
      * now rewrite FloatFacts.eqb_sym.
      * now apply FloatFacts.ltb_false_leb.
  - rewrite (FloatFacts.sub_ltb_zero _ _ Vx Vy). split; intros L.
    + now left.
    + left. apply FloatFacts.leb_neq_ltb.
      * now apply FloatFacts.ltb_false_leb.
      * now rewrite FloatFacts.eqb_sym.
Qed.





(** * Further properties *)

(** ** The thresholds of the classifiers *)

Lemma below_10_below_15 v : (v <=? 10) = true -> (v <=? 15) = true.
Proof. intros H. apply (FloatFacts.leb_trans v 10 15 H). reflexivity. Qed.

Lemma below_15_below_20 v : (v <=? 15) = true -> (v <=? 20) = true.
Proof. intros H. apply (FloatFacts.leb_trans v 15 20 H). reflexivity. Qed.

Lemma below_20_not_above v : (v <=? 20) = true -> (20 <? v) = false.
Proof. apply FloatFacts.leb_not_ltb. Qed.

Lemma above_25_above_20 v : (25 <? v) = true -> (20 <? v) = true.
Proof.
  intros H. apply (FloatFacts.leb_ltb_trans 20 25 v); auto.
Qed.

(** Cases on the five tests of a value percentage, the impossible ones
    removed. *)
Ltac thresholds v :=
  pose proof (below_10_below_15 v);
  pose proof (below_15_below_20 v);
  pose proof (below_20_not_above v);
  pose proof (above_25_above_20 v);
  destruct (v <=? 10), (v <=? 15), (v <=? 20), (20 <? v), (25 <? v);
  repeat match goal with
         | H : true = true -> _ |- _ => specialize (H eq_refl)
         | H : false = true -> _ |- _ => clear H
         end;
  try discriminate.

(** [getRecommendation] splits at 10 and at 20 only: the test at 15 never
    changes the label, and the label is ENTRY, HOLD or AVOID. *)
Theorem getRecommendation_three_way :
  forall valuePercent,
    getRecommendation valuePercent
    = (if valuePercent <=? 10 then ENTRY
       else if valuePercent <=? 20 then HOLD else AVOID)
    /\ In (getRecommendation valuePercent) [ENTRY; HOLD; AVOID].
Proof.
  intros v. unfold getRecommendation.
  thresholds v; simpl; auto.
Qed.

(** The alert agrees with the detailed label: good_entry goes with ENTRY,
    value_breach with EXIT and VALUE_BREACH, profit_booking with
    PROFIT_BOOKING and SCALE; CHAIN_WARNING raises chain_warning, and no
    alert is raised only for HOLD or AVOID. *)
Theorem alert_matches_label :
  forall valuePercent distanceFromATM gap,
    let label := getDetailedRecommendation valuePercent distanceFromATM gap in
    let alert := getAlertType valuePercent distanceFromATM gap in
    (label = ENTRY <-> alert = Some good_entry)
    /\ (In label [EXIT; VALUE_BREACH] <-> alert = Some value_breach)
    /\ (In label [PROFIT_BOOKING; SCALE] <-> alert = Some profit_booking)
    /\ (label = CHAIN_WARNING -> alert = Some chain_warning)
    /\ (alert = None -> In label [HOLD; AVOID]).
Proof.
  intros v d g. unfold getDetailedRecommendation, getAlertType.
  thresholds v; destruct (d <=? 2), (g <=? 100); simpl;
    repeat split; intros; try discriminate; auto;
    repeat match goal with
           | H : _ \/ _ |- _ => destruct H
           | H : False |- _ => destruct H
           end; try discriminate.
Qed.

(** The colour class follows the basic recommendation: red exactly for
    AVOID, emerald only for ENTRY and HOLD, yellow only for HOLD. *)
Theorem getValueColorClass_matches_recommendation :
  forall valuePercent,
    (getValueColorClass valuePercent = "text-red-500 bg-red-500/10"%string
     <-> getRecommendation valuePercent = AVOID)
    /\ (getValueColorClass valuePercent = "text-yellow-500 bg-yellow-500/10"%string
        -> getRecommendation valuePercent = HOLD)
    /\ (getRecommendation valuePercent = ENTRY
        -> getValueColorClass valuePercent
           = "text-emerald-500 bg-emerald-500/10"%string).
Proof.
  intros v. unfold getValueColorClass, getRecommendation.
  thresholds v; repeat split; intros; try discriminate; auto.
Qed.

(** A strike is at or out of the money for calls and for puts at once
    exactly when it equals the at-the-money strike, and a strike that is a
    number is so for at least one of the two. *)
Theorem isATMorOTM_sides :
  forall strike atmStrike,
    (isATMorOTM strike atmStrike CALL && isATMorOTM strike atmStrike PUT
     = (strike =? atmStrike))
    /\ (is_nan strike = false -> is_nan atmStrike = false ->
        isATMorOTM strike atmStrike CALL || isATMorOTM strike atmStrike PUT = true).
Proof.
  intros s a. unfold isATMorOTM. split.
  - rewrite !FloatAxioms.leb_spec, FloatAxioms.eqb_spec.
    unfold SFleb, SFeqb. rewrite (FloatFacts.SFcompare_antisym (Prim2SF s)).
    destruct (SFcompare (Prim2SF s) (Prim2SF a)) as [[]|]; reflexivity.
  - intros Hs Ha.
    destruct (a <=? s) eqn:E; auto. simpl.
    apply FloatFacts.ltb_leb, FloatFacts.leb_neq_ltb.
    + apply FloatFacts.ltb_false_leb; auto.
      destruct (a <? s) eqn:L; auto. apply FloatFacts.ltb_leb in L. congruence.
    + destruct (s =? a) eqn:Q; auto.
      rewrite FloatFacts.eqb_sym in Q. apply FloatFacts.eqb_leb in Q. congruence.
Qed.

Lemma isATMorOTM_sides_witness :
  isATMorOTM 24050 24000 CALL || isATMorOTM 24050 24000 PUT = true.
Proof. apply (isATMorOTM_sides 24050 24000); reflexivity. Defined.


(** ** The at-the-money strike *)

(** Either no distance to the spot price is below another one (spot price
    NaN or infinite), or every strike that is a number has a distance that
    is a number. *)
Lemma spot_distance_cases spotPrice :
  (forall x y, is_nan x = false -> is_nan y = false ->
     (spot_distance spotPrice x <? spot_distance spotPrice y) = false)
  \/ (forall x, is_nan x = false -> is_nan (spot_distance spotPrice x) = false).
Proof.
  unfold spot_distance, JS.Math_abs.
  destruct (Prim2SF spotPrice) as [s|s| |s m e] eqn:P.
  - right. intros x Hx. apply NotNaN.is_nan_false.
    rewrite FloatAxioms.abs_spec, FloatAxioms.sub_spec, P.
    apply FloatFacts.Prim2SF_not_nan in Hx.
    pose proof (NotNaN.SFsub_not_nan (Prim2SF x) (S754_zero s)) as N.
    destruct (Prim2SF x) as [sx|sx| |sx mx ex] eqn:X; try contradiction;
      try (specialize (N eq_refl eq_refl);
           destruct (SF64sub _ _); simpl; congruence);
      destruct sx; discriminate.
  - left. intros x y Hx Hy.
    rewrite FloatAxioms.ltb_spec, !FloatAxioms.abs_spec, !FloatAxioms.sub_spec, P.
    apply FloatFacts.Prim2SF_not_nan in Hx, Hy.
    destruct (Prim2SF x) as [sx|sx| |sx mx ex], (Prim2SF y) as [sy|sy| |sy my ey];
      try contradiction; try destruct sx; try destruct sy; destruct s; reflexivity.
  - left. intros x y _ _.
    rewrite FloatAxioms.ltb_spec, !FloatAxioms.abs_spec, !FloatAxioms.sub_spec, P.
    destruct (Prim2SF x) as [sx|sx| |sx mx ex]; reflexivity.
  - right. intros x Hx. apply NotNaN.is_nan_false.
    rewrite FloatAxioms.abs_spec, FloatAxioms.sub_spec, P.
    apply FloatFacts.Prim2SF_not_nan in Hx.
    pose proof (NotNaN.SFsub_not_nan (Prim2SF x) (S754_finite s m e)) as N.
    destruct (Prim2SF x) as [sx|sx| |sx mx ex] eqn:X; try contradiction;
      try (specialize (N eq_refl eq_refl);
           destruct (SF64sub _ _); simpl; congruence);
      destruct sx; discriminate.
Qed.

Lemma leb_refl x : is_nan x = false -> (x <=? x) = true.
Proof. intros H. now apply FloatFacts.eqb_leb, eqb_refl. Qed.

Section Closest.
Variable spotPrice : float.
Hypothesis numbers :
  forall x, is_nan x = false -> is_nan (spot_distance spotPrice x) = false.

Let dist := spot_distance spotPrice.

Lemma closer_le prev curr :
  is_nan prev = false -> is_nan curr = false ->
  (dist (closer spotPrice prev curr) <=? dist prev) = true
  /\ (dist (closer spotPrice prev curr) <=? dist curr) = true.
Proof.
  intros Hp Hc. unfold closer. fold (spot_distance spotPrice curr).
  fold (spot_distance spotPrice prev). fold dist.
  destruct (dist curr <? dist prev) eqn:L; split.
  - now apply FloatFacts.ltb_leb.
  - apply leb_refl, numbers, Hc.
  - apply leb_refl, numbers, Hp.
  - apply FloatFacts.ltb_false_leb; auto; apply numbers; auto.
Qed.

Lemma closer_not_nan prev curr :
  is_nan prev = false -> is_nan curr = false ->
  is_nan (closer spotPrice prev curr) = false.
Proof. intros. now destruct (closer_cases spotPrice prev curr) as [-> | ->]. Qed.

Lemma fold_closer_le rest : forall init,
  is_nan init = false -> Forall (fun x => is_nan x = false) rest ->
  (dist (fold_left (closer spotPrice) rest init) <=? dist init) = true
  /\ forall s, In s rest ->
       (dist (fold_left (closer spotPrice) rest init) <=? dist s) = true.
Proof.
  induction rest as [|x rest IH]; intros init Hi F; simpl.
  - split; [apply leb_refl, numbers, Hi | intros s []].
  - inversion F as [|? ? Hx Fr]; subst.
    destruct (closer_le init x Hi Hx) as [L1 L2].
    destruct (IH (closer spotPrice init x) (closer_not_nan _ _ Hi Hx) Fr)
      as [M1 M2].
    split.
    + eapply FloatFacts.leb_trans; eauto.
    + intros s [<-|Hs]; auto. eapply FloatFacts.leb_trans; eauto.
Qed.

End Closest.

(** The strike picked by the search is one of the strikes, and no strike is
    strictly closer to the spot price. *)
Lemma atm_of_closest spotPrice first rest :
  Forall (fun x => is_nan x = false) (first :: rest) ->
  forall s, In s (first :: rest) ->
    (spot_distance spotPrice s
     <? spot_distance spotPrice (atm_of spotPrice first rest)) = false.
Proof.
  intros F s Hs.
  assert (Hatm : is_nan (atm_of spotPrice first rest) = false).
  { rewrite Forall_forall in F. apply F, atm_of_in. }
  assert (Hsn : is_nan s = false) by (rewrite Forall_forall in F; now apply F).
  destruct (spot_distance_cases spotPrice) as [A|B]; [now apply A|].
  inversion F as [|? ? Hf Fr]; subst.
  destruct (fold_closer_le spotPrice B rest first Hf Fr) as [L1 L2].
  apply FloatFacts.leb_not_ltb.
  destruct Hs as [<-|Hs]; [exact L1 | now apply L2].
Qed.

Lemma positive_strikes_numbers optionData l :
  (forall x, In x l -> In x (positive_strikes optionData)) ->
  Forall (fun x => is_nan x = false) l.
Proof.
  intros H. apply Forall_forall. intros x Hx.
  apply H, in_positive_strikes in Hx. destruct Hx as [Hx _].
  now apply FloatFacts.ltb_not_nan in Hx.
Qed.

(** The at-the-money strike of the ranker is a positive strike of the
    normalized chain, and no positive strike of the chain is strictly closer
    to the spot price. *)
Theorem atmStrike_closest :
  forall rawOptionData spotPrice atmStrike,
    atmStrike_of rawOptionData spotPrice = Some atmStrike ->
    In atmStrike
       (positive_strikes (transformOptionDataForButterfly rawOptionData))
    /\ forall s,
         In s (positive_strikes (transformOptionDataForButterfly rawOptionData)) ->
         (spot_distance spotPrice s <? spot_distance spotPrice atmStrike) = false.
Proof.
  intros raw spot atm. unfold atmStrike_of.
  destruct (JS.sort ascending _) as [|first rest] eqn:E; [discriminate|].
  intros H. injection H as <-.
  destruct (ranker_strikes raw spot first rest E) as [Hall Hatm].
  split; auto. intros s Hs.
  apply atm_of_closest.
  - eapply positive_strikes_numbers; eauto.
  - rewrite <- E. now apply in_sort.
Qed.

Lemma atmStrike_closest_witness :
  In 24000 (positive_strikes (transformOptionDataForButterfly sample_feed))
  /\ forall s,
       In s (positive_strikes (transformOptionDataForButterfly sample_feed)) ->
       (spot_distance 24010 s <? spot_distance 24010 24000) = false.
Proof.
  apply (atmStrike_closest sample_feed 24010 24000). vm_compute. reflexivity.
Defined.


(** ** The chain matrix *)

Lemma map_strike_chain_row optionData type gaps atmStrike strikes :
  map ButterflyData.strike (map (chain_row optionData type gaps atmStrike) strikes)
  = strikes.
Proof. rewrite map_map. apply map_id. Qed.

(** The matrix is empty or has one row for each positive strike, in the
    order of the sorted strikes. *)
Lemma calculateButterflyChain_rows rawOptionData spotPrice type gaps :
  let optionData := transformOptionDataForButterfly rawOptionData in
  (calculateButterflyChain rawOptionData spotPrice type gaps = []
   /\ positive_strikes optionData = [])
  \/ exists first rest,
       JS.sort (chain_compare type) (positive_strikes optionData) = first :: rest
       /\ calculateButterflyChain rawOptionData spotPrice type gaps
          = map (chain_row optionData type gaps (atm_of spotPrice first rest))
                (first :: rest).
Proof.
  cbv zeta. unfold calculateButterflyChain.
  destruct (transformOptionDataForButterfly rawOptionData) as [|r od]; auto.
  fold (chain_compare type).
  destruct (JS.sort (chain_compare type) (positive_strikes (r :: od)))
    as [|first rest] eqn:E.
  - left. split; auto.
    pose proof (sort_perm (chain_compare type) (positive_strikes (r :: od))) as P.
    rewrite E in P. now apply Permutation_nil, Permutation_sym.
  - right. exists first, rest. auto.
Qed.

Lemma display_order_placed type x y :
  is_nan x = false -> is_nan y = false ->
  placed (chain_compare type) (display_order type) x y.
Proof.
  intros Hx Hy. unfold placed, chain_compare, display_order.
  destruct type; unfold ascending, descending.
  - rewrite (FloatFacts.sub_ltb_zero x y Hx Hy). split.
    + apply FloatFacts.ltb_leb.
    + now apply FloatFacts.ltb_false_leb.
  - rewrite (FloatFacts.sub_ltb_zero y x Hy Hx). split.
    + apply FloatFacts.ltb_leb.
    + now apply FloatFacts.ltb_false_leb.
Qed.

(** The chain matrix has one row for each positive strike of the normalized
    chain (as many rows as there are such rows in the chain), in ascending
    order of strike for calls and in descending order for puts. *)
Theorem calculateButterflyChain_order :
  forall rawOptionData spotPrice type gaps,
    let strikes :=
      map ButterflyData.strike
          (calculateButterflyChain rawOptionData spotPrice type gaps) in
    Sorted (display_order type) strikes
    /\ Forall (fun s => (0 <? s) = true) strikes
    /\ Permutation strikes
         (positive_strikes (transformOptionDataForButterfly rawOptionData)).
Proof.
  intros raw spot type gaps. cbv zeta.
  destruct (calculateButterflyChain_rows raw spot type gaps)
    as [[-> ->] | (first & rest & E & ->)]; [repeat constructor|].
  rewrite map_strike_chain_row, <- E.
  assert (N : Forall (fun x => is_nan x = false)
                (positive_strikes (transformOptionDataForButterfly raw)))
    by (eapply positive_strikes_numbers; eauto).
  rewrite Forall_forall in N.
  split; [|split].
  - apply sort_sorted_all. intros x y Hx Hy.
    apply display_order_placed; auto.
  - apply Forall_forall. intros x Hx. apply in_sort in Hx.
    now apply in_positive_strikes in Hx.
  - apply Permutation_sym, sort_perm.
Qed.

Lemma in_set_gap entry gap cell gapData :
  In entry (set_gap gap cell gapData) ->
  (JS.same_value_zero (fst entry) gap = true /\ snd entry = cell)
  \/ In entry gapData.
Proof.
  induction gapData as [|[g c] rest IH]; simpl.
  - intros [<-|[]]. left. split; auto. apply same_value_zero_refl.
  - destruct (JS.same_value_zero g gap) eqn:E; simpl.
    + intros [<-|H]; auto.
    + intros [<-|H]; auto. apply IH in H. tauto.
Qed.

Lemma fold_gap_step optionData type strike gaps : forall done gapData,
  (forall entry, In entry gapData ->
     priced_cell optionData type strike (done ++ gaps) entry) ->
  forall entry,
    In entry (fold_left (gap_step optionData type strike) gaps gapData) ->
    priced_cell optionData type strike (done ++ gaps) entry.
Proof.
  induction gaps as [|gap gaps IH]; intros done gapData Inv entry H; simpl in H.
  - now apply Inv.
  - replace (done ++ gap :: gaps) with ((done ++ [gap]) ++ gaps) in *
      by (rewrite <- app_assoc; reflexivity).
    revert H. apply IH. clear entry. intros entry H.
    unfold gap_step in H.
    destruct (legs type strike gap) as [[lo mi] up] eqn:L.
    destruct (calculateButterflyRate lo mi up optionData type) as [result|] eqn:C;
      [|now apply Inv].
    destruct (0 <? ButterflyResult.rate result) eqn:P; [|now apply Inv].
    apply in_set_gap in H. destruct H as [[K V]|H]; [|now apply Inv].
    exists gap, result. repeat split; auto.
    + apply in_or_app. left. apply in_or_app. right. now left.
    + now rewrite L.
Qed.

(** Every cell of the [gaps] object of a row belongs to a requested gap
    whose butterfly on that strike was priced with a strictly positive rate,
    and holds that rate and its value percentage. *)
Theorem calculateButterflyChain_cells :
  forall rawOptionData spotPrice type gaps d entry,
    In d (calculateButterflyChain rawOptionData spotPrice type gaps) ->
    In entry (ButterflyData.gaps d) ->
    priced_cell (transformOptionDataForButterfly rawOptionData) type
      (ButterflyData.strike d) gaps entry
    /\ (0 <? GapCell.rate (snd entry)) = true.
Proof.
  intros raw spot type gaps d entry Hd He.
  apply calculateButterflyChain_inv in Hd.
  destruct Hd as (atm & strike & _ & ->).
  unfold chain_row in He. cbn [ButterflyData.gaps] in He.
  cbn [chain_row ButterflyData.strike].
  assert (P : priced_cell (transformOptionDataForButterfly raw) type strike
                gaps entry).
  { apply (fold_gap_step _ type strike gaps [] []); auto. intros ? []. }
  split; auto.
  destruct P as (gap & result & _ & _ & _ & Hpos & ->). exact Hpos.
Qed.

Lemma calculateButterflyChain_cells_witness :
  priced_cell (transformOptionDataForButterfly sample_feed) CALL 24050
    default_gaps (50, GapCell.mk 21 37.5)
  /\ (0 <? 21) = true.
Proof.
  apply (calculateButterflyChain_cells sample_feed 24010 CALL default_gaps
           (ButterflyData.mk 24050 55 54 56 false [(50, GapCell.mk 21 37.5)])
           (50, GapCell.mk 21 37.5)).
  - vm_compute. right. left. reflexivity.
  - left. reflexivity.
Defined.

(** In a chain matrix that is not empty, the rows flagged [isATM] are the
    rows whose strike equals one strike of the matrix; that strike has a row,
    so at least one row is flagged, and no row is strictly closer to the
    spot price. *)
Theorem calculateButterflyChain_atm :
  forall rawOptionData spotPrice type gaps,
    calculateButterflyChain rawOptionData spotPrice type gaps <> [] ->
    exists atmStrike,
      (forall d, In d (calculateButterflyChain rawOptionData spotPrice type gaps) ->
         ButterflyData.isATM d = (ButterflyData.strike d =? atmStrike))
      /\ (exists d, In d (calculateButterflyChain rawOptionData spotPrice type gaps)
                    /\ ButterflyData.strike d = atmStrike
                    /\ ButterflyData.isATM d = true)
      /\ (forall d, In d (calculateButterflyChain rawOptionData spotPrice type gaps) ->
            (spot_distance spotPrice (ButterflyData.strike d)
             <? spot_distance spotPrice atmStrike) = false).
Proof.
  intros raw spot type gaps NE.
  destruct (calculateButterflyChain_rows raw spot type gaps)
    as [[E _] | (first & rest & E & R)]; [contradiction|].
  rewrite R. clear NE R.
  set (od := transformOptionDataForButterfly raw) in *.
  set (atm := atm_of spot first rest).
  assert (N : Forall (fun x => is_nan x = false) (first :: rest)).
  { apply (positive_strikes_numbers od). intros x Hx.
    rewrite <- E in Hx. now apply in_sort in Hx. }
  exists atm. split; [|split].
  - intros d Hd. apply in_map_iff in Hd. destruct Hd as (s & <- & _). reflexivity.
  - exists (chain_row od type gaps atm atm). split; [|split]; auto.
    + apply in_map, atm_of_in.
    + cbn [chain_row ButterflyData.isATM]. apply eqb_refl.
      rewrite Forall_forall in N. apply N, atm_of_in.
  - intros d Hd. apply in_map_iff in Hd. destruct Hd as (s & <- & Hs).
    cbn [chain_row ButterflyData.strike]. now apply atm_of_closest.
Qed.

Lemma calculateButterflyChain_atm_witness :
  exists atmStrike,
    (forall d, In d (calculateButterflyChain sample_feed 24010 CALL default_gaps) ->
       ButterflyData.isATM d = (ButterflyData.strike d =? atmStrike))
    /\ (exists d, In d (calculateButterflyChain sample_feed 24010 CALL default_gaps)
                  /\ ButterflyData.strike d = atmStrike
                  /\ ButterflyData.isATM d = true)
    /\ (forall d, In d (calculateButterflyChain sample_feed 24010 CALL default_gaps) ->
          (spot_distance 24010 (ButterflyData.strike d)
           <? spot_distance 24010 atmStrike) = false).
Proof.
  apply (calculateButterflyChain_atm sample_feed 24010 CALL default_gaps).
  vm_compute. discriminate.
Defined.


(** ** The table component *)

Lemma closer_same spotPrice x : closer spotPrice x x = x.
Proof. unfold closer. now destruct (_ <? _). Qed.

Lemma filter_all {A : Type} (f : A -> bool) l :
  Forall (fun x => f x = true) l -> filter f l = l.
Proof.
  induction 1 as [|x l Hx _ IH]; simpl; auto. now rewrite Hx, IH.
Qed.

Lemma positive_truthy x : (0 <? x) = true -> JS.truthy x = true.
Proof.
  intros H. unfold JS.truthy.
  destruct (FloatFacts.ltb_not_nan _ _ H) as [_ ->].
  destruct (x =? 0) eqn:E; auto.
  apply FloatFacts.eqb_leb, FloatFacts.leb_not_ltb in E. congruence.
Qed.

Lemma isATMorOTM_cover strike atmStrike :
  (strike =? atmStrike) = true ->
  isATMorOTM strike atmStrike CALL && isATMorOTM strike atmStrike PUT = true.
Proof.
  intros E. unfold isATMorOTM.
  rewrite (FloatFacts.eqb_leb _ _ E).
  rewrite FloatFacts.eqb_sym in E. now rewrite (FloatFacts.eqb_leb _ _ E).
Qed.

(** The at-the-money strike that [ButterflyChainTable] computes again from
    the rows is the strike the rows were flagged with: a row is flagged
    [isATM] exactly when its strike equals it, and a flagged row is never
    rendered as in the money. *)
Theorem chainTable_memo_atm :
  forall optionData spotPrice type d,
    In d (fst (chainTable_memo optionData spotPrice type)) ->
    ButterflyData.isATM d
    = (ButterflyData.strike d =? snd (chainTable_memo optionData spotPrice type))
    /\ (ButterflyData.isATM d = true ->
        rendered_ITM d (snd (chainTable_memo optionData spotPrice type)) type
        = false).
Proof.
  intros od spot type d. unfold chainTable_memo.
  destruct od as [|r0 od0]; [intros []|]. set (od := r0 :: od0).
  destruct (JS.truthy spot); cbn [negb]; [|intros []].
  cbn [fst snd].
  destruct (calculateButterflyChain_rows od spot type default_gaps)
    as [[-> _] | (first & rest & E & ->)]; [intros []|].
  rewrite map_strike_chain_row.
  set (od' := transformOptionDataForButterfly od) in *.
  assert (Pos : Forall (fun s => (0 <? s) = true) (first :: rest)).
  { apply Forall_forall. intros x Hx. rewrite <- E in Hx.
    apply in_sort in Hx. now apply in_positive_strikes in Hx. }
  rewrite (filter_all (fun s => 0 <? s) _ Pos).
  inversion Pos as [|? ? Pf _]; subst.
  rewrite (positive_truthy _ Pf). cbn [fold_left]. rewrite closer_same.
  fold (atm_of spot first rest).
  intros Hd. apply in_map_iff in Hd. destruct Hd as (s & <- & Hs).
  cbn [chain_row ButterflyData.isATM ButterflyData.strike]. split; auto.
  intros Q. unfold rendered_ITM. cbn [chain_row ButterflyData.strike].
  pose proof (isATMorOTM_cover s (atm_of spot first rest) Q) as C.
  apply andb_prop in C. destruct C as [C1 C2].
  destruct type; [rewrite C1 | rewrite C2]; reflexivity.
Qed.

Lemma chainTable_memo_atm_witness :
  ButterflyData.isATM (ButterflyData.mk 24050 55 54 56 false
                         [(50, GapCell.mk 21 37.5)])
  = (24050 =? snd (chainTable_memo sample_feed 24010 CALL))
  /\ (ButterflyData.isATM (ButterflyData.mk 24050 55 54 56 false
                             [(50, GapCell.mk 21 37.5)]) = true ->
      rendered_ITM (ButterflyData.mk 24050 55 54 56 false
                      [(50, GapCell.mk 21 37.5)])
        (snd (chainTable_memo sample_feed 24010 CALL)) CALL = false).
Proof.
  apply (chainTable_memo_atm sample_feed 24010 CALL
           (ButterflyData.mk 24050 55 54 56 false [(50, GapCell.mk 21 37.5)])).
  vm_compute. right. left. reflexivity.
Defined.


(** ** More on the shortlist *)

Lemma positive_strikes_none optionData :
  (forall r, In r optionData -> JS.gt_zero (strike_price r) = false) ->
  positive_strikes optionData = [].
Proof.
  intros H. unfold positive_strikes.
  induction optionData as [|r od IH]; simpl; auto.
  rewrite (H r (or_introl eq_refl)). apply IH. intros r' Hr'. apply H. now right.
Qed.

(** With nothing to rank the result is empty, never an error: for an empty
    feed and when no row has a positive strike, the ranker, [findBestTrades]
    and the chain matrix return the empty list; for a spot price of 0 or NaN
    the ranker and [findBestTrades] do. *)
Theorem nothing_to_rank :
  forall rawOptionData spotPrice maxValuePercent type gaps,
    (rawOptionData = []
     \/ (forall r, In r rawOptionData -> JS.gt_zero (strike_price r) = false) ->
     findBestStrategies rawOptionData spotPrice maxValuePercent = []
     /\ findBestTrades rawOptionData spotPrice = []
     /\ calculateButterflyChain rawOptionData spotPrice type gaps = [])
    /\ (JS.truthy spotPrice = false ->
        findBestStrategies rawOptionData spotPrice maxValuePercent = []
        /\ findBestTrades rawOptionData spotPrice = []).
Proof.
  intros raw spot mvp type gaps. split.
  - intros H.
    assert (P : positive_strikes (transformOptionDataForButterfly raw) = []).
    { destruct H as [-> | H]; [reflexivity|].
      apply positive_strikes_none. intros e He.
      destruct (transform_strikes _ _ He) as (r' & Hr' & ->). now apply H. }
    assert (E : forall m, findBestStrategies raw spot m = []).
    { intros m. unfold findBestStrategies. rewrite P.
      destruct (transformOptionDataForButterfly raw); auto.
      now destruct (JS.truthy spot). }
    split; [apply E | split].
    + unfold findBestTrades. now rewrite E.
    + destruct (calculateButterflyChain_rows raw spot type gaps)
        as [[-> _] | (first & rest & S & _)]; auto.
      rewrite P in S. discriminate S.
  - intros St.
    assert (E : forall m, findBestStrategies raw spot m = []).
    { intros m. unfold findBestStrategies. rewrite St.
      now destruct (transformOptionDataForButterfly raw). }
    split; [apply E|]. unfold findBestTrades. now rewrite E.
Qed.

Lemma nothing_to_rank_witness :
  findBestStrategies sample_feed 0 20 = []
  /\ findBestTrades sample_feed 0 = [].
Proof.
  apply (nothing_to_rank sample_feed 0 20 CALL default_gaps). reflexivity.
Defined.

Lemma in_candidates_gap s optionData atmStrike maxValuePercent strikes :
  In s (candidates optionData atmStrike maxValuePercent strikes) ->
  exists type gap baseStrike,
    In gap [50; 100; 150; 200] /\ In baseStrike strikes /\
    candidate optionData atmStrike maxValuePercent type gap baseStrike = Some s.
Proof.
  unfold candidates. intros H.
  apply in_flat_map in H. destruct H as (type & _ & H).
  apply in_flat_map in H. destruct H as (gap & Hg & H).
  apply in_collect in H. destruct H as (b & Hb & H). eauto 8.
Qed.

(** A listed strategy is a butterfly on a positive strike of the normalized
    chain with one of the gaps 50, 100, 150, 200: its three strikes are the
    legs of that base strike, each of them is the strike of a row of the
    chain, and its rate and reference premium are those the pricer gives for
    these legs. *)
Theorem listed_strategy_legs :
  forall rawOptionData spotPrice maxValuePercent s,
    In s (findBestStrategies rawOptionData spotPrice maxValuePercent) ->
    let optionData := transformOptionDataForButterfly rawOptionData in
    exists baseStrike,
      In baseStrike (positive_strikes optionData)
      /\ In (ButterflyStrategy.gap s) [50; 100; 150; 200]
      /\ ButterflyStrategy.strikes s
         = legs (ButterflyStrategy.type s) baseStrike (ButterflyStrategy.gap s)
      /\ (let '(lo, mi, up) := ButterflyStrategy.strikes s in
          has_strike optionData lo = true
          /\ has_strike optionData mi = true
          /\ has_strike optionData up = true
          /\ calculateButterflyRate lo mi up optionData (ButterflyStrategy.type s)
             = Some (ButterflyResult.mk (ButterflyStrategy.butterflyRate s)
                       (ButterflyStrategy.firstLegPremium s))).
Proof.
  intros raw spot mvp s H. cbv zeta.
  apply findBestStrategies_inv in H.
  destruct H as (first & rest & E & _ & H).
  apply in_candidates_gap in H. destruct H as (type & gap & b & Hg & Hb & H).
  exists b. split.
  { now apply (ranker_strikes raw spot first rest E). }
  apply candidate_inv in H.
  destruct (legs type b gap) as [[lo mi] up] eqn:L.
  destruct H as (result & C & _ & Hlo & Hmi & Hup & _ & _ & -> & _).
  cbn [ButterflyStrategy.gap ButterflyStrategy.strikes ButterflyStrategy.type
       ButterflyStrategy.butterflyRate ButterflyStrategy.firstLegPremium].
  rewrite L. repeat split; auto.
  rewrite C. now destruct result.
Qed.

Lemma listed_strategy_legs_witness :
  exists baseStrike,
    In baseStrike (positive_strikes (transformOptionDataForButterfly sample_feed))
    /\ In (ButterflyStrategy.gap sample_strategy) [50; 100; 150; 200]
    /\ ButterflyStrategy.strikes sample_strategy
       = legs (ButterflyStrategy.type sample_strategy) baseStrike
           (ButterflyStrategy.gap sample_strategy)
    /\ (let '(lo, mi, up) := ButterflyStrategy.strikes sample_strategy in
        has_strike (transformOptionDataForButterfly sample_feed) lo = true
        /\ has_strike (transformOptionDataForButterfly sample_feed) mi = true
        /\ has_strike (transformOptionDataForButterfly sample_feed) up = true
        /\ calculateButterflyRate lo mi up
             (transformOptionDataForButterfly sample_feed)
             (ButterflyStrategy.type sample_strategy)
           = Some (ButterflyResult.mk
                     (ButterflyStrategy.butterflyRate sample_strategy)
                     (ButterflyStrategy.firstLegPremium sample_strategy))).
Proof.
  apply (listed_strategy_legs sample_feed 24010 20 sample_strategy).
  vm_compute. left. reflexivity.
Defined.

(** The derived fields of a listed strategy agree with its value percentage,
    gap and strikes: the recommendation is that of [getRecommendation], the
    gap flag is [gap <= 100], and with a limit of at most 20 the
    recommendation is ENTRY or HOLD. *)
Theorem listed_strategy_fields :
  forall rawOptionData spotPrice maxValuePercent s,
    In s (findBestStrategies rawOptionData spotPrice maxValuePercent) ->
    ButterflyStrategy.recommendation s
    = getRecommendation (ButterflyStrategy.valuePercent s)
    /\ ButterflyStrategy.hasGoodGap s = (ButterflyStrategy.gap s <=? 100)
    /\ ((maxValuePercent <=? 20) = true ->
        ButterflyStrategy.recommendation s
        = if ButterflyStrategy.valuePercent s <=? 10 then ENTRY else HOLD).
Proof.
  intros raw spot mvp s H.
  apply findBestStrategies_candidate in H.
  destruct H as (first & rest & type & gap & b & _ & _ & _ & H).
  apply candidate_inv in H.
  destruct (legs type b gap) as [[lo mi] up].
  destruct H as (result & _ & _ & _ & _ & _ & _ & _ & E & Hmax & _).
  rewrite E in *.
  cbn [ButterflyStrategy.recommendation ButterflyStrategy.valuePercent
       ButterflyStrategy.hasGoodGap ButterflyStrategy.gap] in *.
  repeat split; auto.
  intros M. pose proof (FloatFacts.leb_trans _ _ _ Hmax M) as L.
  unfold getRecommendation.
  set (v := calculateValuePercent _ _) in *.
  destruct (v <=? 10); auto. destruct (v <=? 15); auto. now rewrite L.
Qed.

Lemma listed_strategy_fields_witness :
  ButterflyStrategy.recommendation sample_strategy
  = getRecommendation (ButterflyStrategy.valuePercent sample_strategy)
  /\ ButterflyStrategy.hasGoodGap sample_strategy
     = (ButterflyStrategy.gap sample_strategy <=? 100)
  /\ ((20 <=? 20) = true ->
      ButterflyStrategy.recommendation sample_strategy
      = if ButterflyStrategy.valuePercent sample_strategy <=? 10
        then ENTRY else HOLD).
Proof.
  apply (listed_strategy_fields sample_feed 24010 20 sample_strategy).
  vm_compute. left. reflexivity.
Defined.


(** ** The ranking order *)

Lemma leb_antisym x y : (x <=? y) = true -> (y <=? x) = true -> (x =? y) = true.
Proof.
  intros H1 H2. destruct (x =? y) eqn:E; auto.
  pose proof (FloatFacts.leb_neq_ltb _ _ H1 E) as L.
  apply FloatFacts.ltb_not_leb in L. congruence.
Qed.

Lemma eqb_trans x y z : (x =? y) = true -> (y =? z) = true -> (x =? z) = true.
Proof.
  intros H1 H2. apply leb_antisym.
  - eapply FloatFacts.leb_trans; apply FloatFacts.eqb_leb; eauto.
  - rewrite FloatFacts.eqb_sym in H1, H2.
    eapply FloatFacts.leb_trans; apply FloatFacts.eqb_leb; eauto.
Qed.

Lemma ranked_before_trans a b c :
  ranked_before a b -> ranked_before b c -> ranked_before a c.
Proof.
  unfold ranked_before. intros [L1|[E1 D1]] [L2|[E2 D2]].
  - left. eapply FloatFacts.ltb_trans; eauto.
  - left. eapply FloatFacts.ltb_leb_trans; eauto. now apply FloatFacts.eqb_leb.
  - left. eapply FloatFacts.leb_ltb_trans; eauto. now apply FloatFacts.eqb_leb.
  - right. split.
    + eapply eqb_trans; eauto.
    + eapply FloatFacts.leb_trans; eauto.
Qed.

Lemma ranked_before_value a b :
  ranked_before a b ->
  (ButterflyStrategy.valuePercent a <=? ButterflyStrategy.valuePercent b) = true.
Proof.
  intros [L|[E _]]; [now apply FloatFacts.ltb_leb | now apply FloatFacts.eqb_leb].
Qed.

Lemma sorted_strongly l :
  Sorted ranked_before l -> StronglySorted ranked_before l.
Proof.
  apply Sorted_StronglySorted. intros a b c. apply ranked_before_trans.
Qed.

Lemma strongly_sorted_filter {A : Type} (R : A -> A -> Prop) f l :
  StronglySorted R l -> StronglySorted R (filter f l).
Proof.
  induction 1 as [|x l S IH F]; simpl; [constructor|].
  destruct (f x); auto. constructor; auto.
  apply Forall_forall. intros y Hy. apply filter_In in Hy.
  rewrite Forall_forall in F. now apply F.
Qed.

Lemma strongly_sorted_firstn {A : Type} (R : A -> A -> Prop) n : forall l,
  StronglySorted R l -> StronglySorted R (firstn n l).
Proof.
  induction n as [|n IH]; intros l S; simpl; [constructor|].
  destruct l as [|x l]; [constructor|].
  inversion S as [|? ? S' F]; subst. constructor; auto.
  apply Forall_forall. intros y Hy.
  rewrite Forall_forall in F. apply F.
  rewrite <- (firstn_skipn n l). apply in_or_app. now left.
Qed.

(** The sorted shortlist as the helper lemmas use it. *)
Lemma shortlist_sorted rawOptionData spotPrice maxValuePercent :
  finite_strikes rawOptionData ->
  Sorted ranked_before
    (findBestStrategies rawOptionData spotPrice maxValuePercent).
Proof.
  intros F.
  apply finite_strikes_transform in F.
  unfold findBestStrategies.
  destruct (transformOptionDataForButterfly rawOptionData) as [|r od] eqn:T;
    [constructor|].
  destruct (JS.truthy spotPrice); cbn [negb]; [|constructor].
  destruct (JS.sort ascending (positive_strikes (r :: od)))
    as [|first rest] eqn:E; [constructor|].
  assert (Hatm : In (atm_of spotPrice first rest) (positive_strikes (r :: od))).
  { rewrite <- T in E |- *. now apply ranker_strikes. }
  apply sort_sorted_all. intros x y Hx Hy.
  apply in_candidates in Hx, Hy.
  destruct Hx as (tx & gx & bx & _ & Hx), Hy as (ty & gy & b_y & _ & Hy).
  destruct (candidate_numbers _ _ _ _ _ _ _ F Hatm Hx).
  destruct (candidate_numbers _ _ _ _ _ _ _ F Hatm Hy).
  now apply ranking_placed.
Qed.

(** For a chain without an infinite strike, every strategy of the shortlist
    ranks before every strategy behind it, not only before its neighbour; so
    the first strategy has the least value percentage of all. *)
Theorem findBestStrategies_best_first :
  forall rawOptionData spotPrice maxValuePercent,
    finite_strikes rawOptionData ->
    StronglySorted ranked_before
      (findBestStrategies rawOptionData spotPrice maxValuePercent)
    /\ forall best rest,
         findBestStrategies rawOptionData spotPrice maxValuePercent = best :: rest ->
         forall s, In s rest ->
           (ButterflyStrategy.valuePercent best
            <=? ButterflyStrategy.valuePercent s) = true.
Proof.
  intros raw spot mvp F.
  pose proof (sorted_strongly _ (shortlist_sorted raw spot mvp F)) as S.
  split; auto.
  intros best rest E s Hs. rewrite E in S.
  inversion S as [|? ? _ Fa]; subst.
  rewrite Forall_forall in Fa. now apply ranked_before_value, Fa.
Qed.

Lemma sample_feed_finite : finite_strikes sample_feed.
Proof.
  intros r x Hr E. vm_compute in Hr.
  repeat (destruct Hr as [<-|Hr]; [injection E as <-; reflexivity|]).
  destruct Hr.
Qed.

Lemma findBestStrategies_best_first_witness :
  StronglySorted ranked_before (findBestStrategies sample_feed 24010 20).
Proof.
  apply (findBestStrategies_best_first sample_feed 24010 20).
  exact sample_feed_finite.
Defined.

(** ** findBestTrades *)

Lemma findBestTrades_listed rawOptionData spotPrice s :
  In s (findBestTrades rawOptionData spotPrice) ->
  In s (findBestStrategies rawOptionData spotPrice 15) /\ best_trade s = true.
Proof.
  unfold findBestTrades. intros H.
  apply filter_In. rewrite <- (firstn_skipn 8 (filter _ _)).
  apply in_or_app. now left.
Qed.

(** [findBestTrades] picks from the shortlist for a limit of 15 without
    reordering: its result is in ranking order when no strike is infinite,
    each of its entries is a listed strategy, and when it returns fewer than
    8 entries it returns every listed strategy that passes the three tests. *)
Theorem findBestTrades_selection :
  forall rawOptionData spotPrice,
    (forall s, In s (findBestTrades rawOptionData spotPrice) ->
       In s (findBestStrategies rawOptionData spotPrice 15))
    /\ ((List.length (findBestTrades rawOptionData spotPrice) < 8)%nat ->
        forall s, In s (findBestStrategies rawOptionData spotPrice 15) ->
          best_trade s = true ->
          In s (findBestTrades rawOptionData spotPrice))
    /\ (finite_strikes rawOptionData ->
        StronglySorted ranked_before (findBestTrades rawOptionData spotPrice)).
Proof.
  intros raw spot. split; [|split].
  - intros s H. now apply findBestTrades_listed in H.
  - unfold findBestTrades. intros L s Hs Hb.
    set (l := filter best_trade (findBestStrategies raw spot 15)) in *.
    assert (E : firstn 8 l = l).
    { apply firstn_all2. rewrite length_firstn in L. lia. }
    rewrite E. apply filter_In. auto.
  - intros F. unfold findBestTrades.
    apply strongly_sorted_firstn, strongly_sorted_filter, sorted_strongly.
    now apply shortlist_sorted.
Qed.

Lemma findBestTrades_selection_witness :
  StronglySorted ranked_before (findBestTrades sample_feed 24010).
Proof.
  apply (findBestTrades_selection sample_feed 24010).
  exact sample_feed_finite.
Defined.

(** Every entry of [findBestTrades] is near the money with a good gap and a
    value percentage of at most 15, so the detailed classifier labels it
    ENTRY (value percentage at most 10) or SCALE, and the alert classifier
    good_entry or profit_booking. *)
Theorem findBestTrades_labels :
  forall rawOptionData spotPrice s,
    In s (findBestTrades rawOptionData spotPrice) ->
    let v := ButterflyStrategy.valuePercent s in
    let d := ButterflyStrategy.distanceFromATM s in
    let g := ButterflyStrategy.gap s in
    getDetailedRecommendation v d g = (if v <=? 10 then ENTRY else SCALE)
    /\ getAlertType v d g
       = (if v <=? 10 then Some good_entry else Some profit_booking).
Proof.
  intros raw spot s H. cbv zeta.
  apply findBestTrades_listed in H. destruct H as [_ H].
  unfold best_trade in H.
  apply andb_prop in H. destruct H as [H Hg].
  apply andb_prop in H. destruct H as [Hv Hd].
  unfold getDetailedRecommendation, getAlertType.
  rewrite Hd, Hg.
  pose proof (below_15_below_20 _ Hv) as H20.
  pose proof (below_20_not_above _ H20) as N20.
  assert (N25 : (25 <? ButterflyStrategy.valuePercent s) = false).
  { destruct (25 <? _) eqn:E; auto. apply above_25_above_20 in E. congruence. }
  rewrite N25, N20, Hv.
  destruct (ButterflyStrategy.valuePercent s <=? 10); auto.
Qed.

Lemma findBestTrades_labels_witness :
  getDetailedRecommendation 13 0 50 = (if 13 <=? 10 then ENTRY else SCALE)
  /\ getAlertType 13 0 50
     = (if 13 <=? 10 then Some good_entry else Some profit_booking).
Proof.
  apply (findBestTrades_labels sample_feed 24010 sample_strategy).
  vm_compute. left. reflexivity.
Defined.


(** ** More on the normalizer *)

Lemma transform_strikes_kept rawData e :
  In e (transformOptionDataForButterfly rawData) ->
  exists r, In r rawData /\ not_index_row r = true
            /\ strike_price e = strike_price r.
Proof.
  unfold transformOptionDataForButterfly.
  destruct (already_transformed rawData).
  - intros H. apply filter_In in H. exists e. tauto.
  - intros H. apply in_sort in H.
    apply (in_map strike_price) in H.
    apply fold_add_row_keys_from in H. destruct H as [[]|H].
    apply in_map_iff in H. destruct H as (r & E & H).
    apply filter_In in H. exists r. repeat split; try tauto. congruence.
Qed.

Lemma transform_no_index_row rawData :
  Forall (fun e => not_index_row e = true) (transformOptionDataForButterfly rawData).
Proof.
  apply Forall_forall. intros e He.
  destruct (transform_strikes_kept _ _ He) as (r & _ & K & E).
  unfold not_index_row in *. now rewrite E.
Qed.

(** The normalized chain never contains the index row (strike -1), and
    normalizing a chain again changes nothing as soon as the normalized
    chain carries a [call_ltp] or a [put_ltp]. *)
Theorem normalizer_idempotent :
  forall rawData,
    (forall e, In e (transformOptionDataForButterfly rawData) ->
       JS.strict_eq (strike_price e) (-1) = false)
    /\ (already_transformed (transformOptionDataForButterfly rawData) = true ->
        transformOptionDataForButterfly (transformOptionDataForButterfly rawData)
        = transformOptionDataForButterfly rawData).
Proof.
  intros raw. pose proof (transform_no_index_row raw) as N. split.
  - intros e He. rewrite Forall_forall in N. specialize (N e He).
    unfold not_index_row in N. now destruct (JS.strict_eq _ _).
  - intros H. unfold transformOptionDataForButterfly at 1. rewrite H.
    now apply filter_all.
Qed.

Lemma normalizer_idempotent_witness :
  transformOptionDataForButterfly (transformOptionDataForButterfly sample_feed)
  = transformOptionDataForButterfly sample_feed.
Proof. apply (normalizer_idempotent sample_feed). reflexivity. Defined.

(** ** More on the pricer *)

Lemma toNumberOrNull_finite v x : toNumberOrNull v = Some x -> is_finite x = true.
Proof.
  destruct v as [| |y]; simpl; try discriminate.
  unfold JS.isFinite. destruct (is_finite y) eqn:E; [|discriminate].
  intros H. injection H as <-. exact E.
Qed.

Lemma or_else_finite a b x :
  (forall y, a = Some y -> is_finite y = true) ->
  (forall y, b = Some y -> is_finite y = true) ->
  or_else a b = Some x -> is_finite x = true.
Proof. destruct a; simpl; intros Ha Hb H; [apply Ha | apply Hb]; auto. Qed.

(** A price that the pricer uses is a finite number. *)
Lemma prices_finite o type x :
  (bought_price o type = Some x -> is_finite x = true)
  /\ (sold_price o type = Some x -> is_finite x = true).
Proof.
  unfold bought_price, sold_price, extract.
  destruct type; cbn [Extracted.ask Extracted.bid Extracted.ltp]; split;
    apply or_else_finite; intros y; apply toNumberOrNull_finite.
Qed.

Lemma is_finite_SFfinite x : is_finite x = true -> SFfinite (Prim2SF x) = true.
Proof.
  unfold is_finite. intros H. apply negb_true_iff, orb_false_iff in H.
  destruct H. now apply NotNaN.finite_spec.
Qed.

Lemma SFmul_not_nan a b :
  SFfinite a = true -> SFfinite b = true -> SF64mul a b <> S754_nan.
Proof.
  unfold SF64mul, SFmul.
  destruct a as [sa|sa| |sa ma ea], b as [sb|sb| |sb mb eb]; simpl;
    intros Ha Hb; try discriminate.
  apply NotNaN.binary_round_aux_not_nan. lia.
Qed.

Lemma SFsub_finite_l_not_nan a b :
  SFfinite a = true -> b <> S754_nan -> SF64sub a b <> S754_nan.
Proof.
  intros Ha Hb. destruct b as [sb|sb| |sb mb eb] eqn:B; try contradiction.
  - apply NotNaN.SFsub_not_nan; auto.
  - destruct a; try discriminate Ha; discriminate.
  - apply NotNaN.SFsub_not_nan; auto.
Qed.

Lemma SFadd_finite_r_not_nan a b :
  a <> S754_nan -> SFfinite b = true -> SF64add a b <> S754_nan.
Proof.
  unfold SF64add, SFadd. intros Ha Hb.
  destruct a as [sa|sa| |sa ma ea], b as [sb|sb| |sb mb eb];
    try contradiction; try discriminate Hb; try discriminate.
  - destruct sa, sb; discriminate.
  - apply NotNaN.binary_normalize_not_nan.
Qed.

(** The rate formula on finite prices never gives NaN. *)
Lemma rate_not_nan lowerAsk middleBid upperAsk :
  is_finite lowerAsk = true -> is_finite middleBid = true ->
  is_finite upperAsk = true ->
  is_nan (lowerAsk - 2 * middleBid + upperAsk) = false.
Proof.
  intros Hl Hm Hu. apply is_finite_SFfinite in Hl, Hm, Hu.
  apply NotNaN.is_nan_false.
  rewrite FloatAxioms.add_spec, FloatAxioms.sub_spec, FloatAxioms.mul_spec.
  apply SFadd_finite_r_not_nan; auto.
  apply SFsub_finite_l_not_nan; auto.
  apply SFmul_not_nan; auto.
Qed.

(** The pricer answers exactly when the three strikes are found and the
    three prices exist, and then the reference premium is a finite number
    and the rate is a number: NaN and infinite quotes never get into a
    result. *)
Theorem calculateButterflyRate_result :
  forall lowerStrike middleStrike upperStrike optionData type,
    (calculateButterflyRate lowerStrike middleStrike upperStrike optionData type
     = None
     <-> find_strike optionData lowerStrike = None
         \/ find_strike optionData middleStrike = None
         \/ find_strike optionData upperStrike = None
         \/ (exists o, find_strike optionData lowerStrike = Some o
                       /\ bought_price o type = None)
         \/ (exists o, find_strike optionData middleStrike = Some o
                       /\ sold_price o type = None)
         \/ (exists o, find_strike optionData upperStrike = Some o
                       /\ bought_price o type = None))
    /\ forall result,
         calculateButterflyRate lowerStrike middleStrike upperStrike
           optionData type = Some result ->
         is_finite (ButterflyResult.firstLegPremium result) = true
         /\ is_nan (ButterflyResult.rate result) = false.
Proof.
  intros lo mi up od type. unfold calculateButterflyRate.
  destruct (find_strike od lo) as [ol|] eqn:Flo;
    [|split; [split; auto | discriminate]].
  destruct (find_strike od mi) as [om|] eqn:Fmi;
    [|split; [split; auto | discriminate]].
  destruct (find_strike od up) as [ou|] eqn:Fup;
    [|split; [split; auto | discriminate]].
  destruct (bought_price ol type) as [la|] eqn:Pl;
    [|split; [split; eauto 8 | discriminate]].
  destruct (sold_price om type) as [mb|] eqn:Pm;
    [|split; [split; eauto 8 | discriminate]].
  destruct (bought_price ou type) as [ua|] eqn:Pu;
    [|split; [split; eauto 8 | discriminate]].
  split.
  - split; [discriminate|].
    intros [H|[H|[H|[(o & H & P)|[(o & H & P)|(o & H & P)]]]]];
      try discriminate; injection H as <-; congruence.
  - intros result H. injection H as <-. cbn.
    apply (prices_finite ol type la) in Pl.
    apply (prices_finite om type mb) in Pm.
    apply (prices_finite ou type ua) in Pu.
    split; [now destruct type | now apply rate_not_nan].
Qed.

Lemma calculateButterflyRate_result_witness :
  is_finite (ButterflyResult.firstLegPremium (ButterflyResult.mk 115 100)) = true
  /\ is_nan (ButterflyResult.rate (ButterflyResult.mk 115 100)) = false.
Proof.
  apply (calculateButterflyRate_result 24000 24050 24100 worked_example CALL).
  reflexivity.
Defined.


(** ** Where the quotes of the normalized chain come from *)

(** Merging a row sets the quantities of its side to the row's value when
    it has one, and leaves everything else as it was. *)
Lemma entry_quantity_merge_row side q entry item :
  entry_quantity side q (merge_row entry item)
  = if match side, side_of item with
       | CALL, CALL | PUT, PUT => true
       | _, _ => false
       end
    then feed_quantity q item ?? entry_quantity side q entry
    else entry_quantity side q entry.
Proof.
  unfold merge_row, side_of.
  destruct (isCall item), side, q; reflexivity.
Qed.

Lemma from_feed_more rows rows' entry :
  (forall r, In r rows -> In r rows') ->
  from_feed rows entry -> from_feed rows' entry.
Proof.
  intros Sub H side q v E. destruct (H side q v E) as (item & Hi & R).
  exists item. split; auto.
Qed.

Lemma from_feed_new rows strike : from_feed rows (new_entry strike).
Proof. intros side q v E. destruct side, q; discriminate E. Qed.

Lemma from_feed_merge rows entry item :
  In item rows ->
  JS.same_value_zero (strike_of entry) (strike_of item) = true ->
  from_feed rows entry -> from_feed rows (merge_row entry item).
Proof.
  intros Hi K H side q v E.
  rewrite entry_quantity_merge_row in E.
  unfold strike_of in *. rewrite strike_price_merge_row.
  destruct side, (side_of item) eqn:S; try (now apply H);
    destruct (feed_quantity q item) as [| |x] eqn:F;
    try (now apply H); simpl in E; injection E as ->;
    exists item; auto.
Qed.

Lemma map_update_from_feed rows strike item strikeMap :
  In item rows -> strike_of item = strike ->
  Forall (from_feed rows) strikeMap ->
  Forall (from_feed rows)
    (map_update strike (fun entry => merge_row entry item) strikeMap).
Proof.
  intros Hi K. induction 1 as [|e m He Hm IH]; simpl; [constructor|].
  destruct (JS.same_value_zero (JS.toNumber (strike_price e)) strike) eqn:S.
  - constructor; auto. apply from_feed_merge; auto.
    unfold strike_of at 1. now rewrite K.
  - constructor; auto.
Qed.

Lemma fold_add_row_from_feed rows : forall done strikeMap,
  Forall (from_feed (done ++ rows)) strikeMap ->
  Forall (from_feed (done ++ rows)) (fold_left add_row rows strikeMap).
Proof.
  induction rows as [|item rows IH]; intros done m H; simpl; auto.
  replace (done ++ item :: rows) with ((done ++ [item]) ++ rows) in *
    by (rewrite <- app_assoc; reflexivity).
  apply IH. unfold add_row.
  destruct (strike_price item) as [| |strike] eqn:E; auto.
  destruct (negb (JS.truthy strike) && negb (strike =? 0)); auto.
  apply map_update_from_feed.
  - apply in_or_app. left. apply in_or_app. right. now left.
  - unfold strike_of. now rewrite E.
  - destruct (map_has strike m); auto.
    apply Forall_app. split; auto. constructor; [|constructor].
    apply from_feed_new.
Qed.

(** On a raw list, no quote of the normalized chain is invented: every
    number an entry holds for a side (last traded price, open interest, bid,
    ask) is carried by a row of the feed with that strike that is routed to
    that side and is not the index row. *)
Theorem normalizer_quotes_from_feed :
  forall rawData entry,
    already_transformed rawData = false ->
    In entry (transformOptionDataForButterfly rawData) ->
    from_feed (filter not_index_row rawData) entry.
Proof.
  intros raw entry Hraw H.
  unfold transformOptionDataForButterfly in H. rewrite Hraw in H.
  apply in_sort in H.
  pose proof (fold_add_row_from_feed (filter not_index_row raw) [] []
                (Forall_nil _)) as F.
  rewrite Forall_forall in F. now apply F.
Qed.

Lemma normalizer_quotes_from_feed_witness :
  from_feed (filter not_index_row [bid_only 24000 5; ask_only 24000 6])
    (merge_row (merge_row (new_entry 24000) (bid_only 24000 5))
       (ask_only 24000 6)).
Proof.
  apply (normalizer_quotes_from_feed [bid_only 24000 5; ask_only 24000 6]).
  - reflexivity.
  - vm_compute. left. reflexivity.
Defined.


(** ** The multi-leg table *)

Lemma toNumberOrNull_coalesce_again a c :
  toNumberOrNull (a ?? c ?? a) = toNumberOrNull (a ?? c).
Proof. destruct a, c; reflexivity. Qed.

(** The multi-leg table prices a leg by the rule of the pricer: for a row
    that is found, its base ask is the pricer's price of a bought leg and
    its middle bid the pricer's price of the sold leg; for a strike without
    a row there is no price. *)
Theorem multi_table_prices :
  forall type,
    (forall o, base_ask (Some o) type = bought_price o type
               /\ middle_bid (Some o) type = sold_price o type)
    /\ base_ask None type = None /\ middle_bid None type = None.
Proof.
  intros type. split; [|split; now destruct type].
  intros o. unfold base_ask, middle_bid, bought_price, sold_price, extract.
  destruct type; cbn [row_field row_leg side_ask side_bid side_ltp
                      Extracted.ask Extracted.bid Extracted.ltp];
    rewrite !toNumberOrNull_coalesce_again; split; reflexivity.
Qed.

Lemma in_leg_values strikeDataMap type strike legs : forall index i v,
  In (i, v) (leg_values strikeDataMap type strike index legs) ->
  exists leg,
    (index <= i)%nat /\ nth_error legs (i - index) = Some leg
    /\ leg_value strikeDataMap type strike leg = Some v.
Proof.
  induction legs as [|leg legs IH]; intros index i v H; simpl in H; [destruct H|].
  assert (Later : In (i, v) (leg_values strikeDataMap type strike (S index) legs)
                  -> exists leg',
                       (index <= i)%nat
                       /\ nth_error (leg :: legs) (i - index) = Some leg'
                       /\ leg_value strikeDataMap type strike leg' = Some v).
  { intros H'. destruct (IH _ _ _ H') as (leg' & L & N & V).
    exists leg'. repeat split; auto; [lia|].
    replace (i - index)%nat with (S (i - S index)) by lia. exact N. }
  destruct (leg_value strikeDataMap type strike leg) as [v0|] eqn:E; auto.
  destruct H as [H|H]; auto.
  injection H as <- <-. exists leg. rewrite Nat.sub_diag. auto.
Qed.

(** For a finite premium the value formula of the table is
    [calculateValuePercent]. *)
Lemma table_value_percent rate premium :
  is_finite premium = true ->
  (if JS.truthy premium && (0 <? premium)
   then (rate / premium) * 100 else 0)
  = calculateValuePercent rate premium.
Proof.
  intros F. unfold calculateValuePercent.
  unfold is_finite in F. apply negb_true_iff, orb_false_iff in F.
  destruct F as [N _].
  destruct (0 <? premium) eqn:P.
  - rewrite (positive_truthy _ P), (FloatFacts.ltb_not_leb _ _ P). reflexivity.
  - rewrite andb_false_r.
    rewrite (FloatFacts.ltb_false_leb 0 premium); auto.
Qed.

(** Every leg value of a row of the multi-leg table belongs to the leg
    configured at its index (CE_LEGS for calls, PE_LEGS for puts): it has
    that leg's ratio, its two prices are finite numbers, its rate is
    [firstAsk - ratio * middleBid], and its value is what
    [calculateValuePercent] gives for that rate and first ask. *)
Theorem multi_table_leg_values :
  forall optionData spotPrice type row index v,
    In row (fst (multiTable_memo optionData spotPrice type)) ->
    In (index, v) (MultiRow.legs row) ->
    exists leg,
      nth_error (match type with CALL => CE_LEGS | PUT => PE_LEGS end) index
      = Some leg
      /\ LegValue.ratio v = LegConfig.ratio leg
      /\ is_finite (LegValue.firstAsk v) = true
      /\ is_finite (LegValue.middleBid v) = true
      /\ LegValue.rate v
         = LegValue.firstAsk v - LegValue.ratio v * LegValue.middleBid v
      /\ LegValue.value v
         = calculateValuePercent (LegValue.rate v) (LegValue.firstAsk v).
Proof.
  intros od spot type row index v Hrow Hv.
  unfold multiTable_memo in Hrow.
  destruct od as [|r0 od0]; [destruct Hrow|].
  destruct (JS.truthy spot); cbn [negb fst] in Hrow; [|destruct Hrow].
  apply in_map_iff in Hrow. destruct Hrow as (strike & <- & _).
  cbn [multi_row MultiRow.legs] in Hv.
  apply in_leg_values in Hv. destruct Hv as (leg & _ & N & V).
  rewrite Nat.sub_0_r in N. exists leg. split; auto.
  unfold leg_value in V.
  destruct (base_ask _ type) as [baseAsk|] eqn:A; [|discriminate].
  destruct (middle_bid _ type) as [middleBid|] eqn:B; [|discriminate].
  injection V as <-.
  cbn [LegValue.ratio LegValue.firstAsk LegValue.middleBid LegValue.rate
       LegValue.value].
  assert (FA : is_finite baseAsk = true).
  { unfold base_ask in A. revert A.
    apply or_else_finite; intros y; apply toNumberOrNull_finite. }
  assert (FB : is_finite middleBid = true).
  { unfold middle_bid in B. revert B.
    apply or_else_finite; intros y; apply toNumberOrNull_finite. }
  repeat split; auto. now apply table_value_percent.
Qed.

Lemma multi_table_leg_values_witness :
  exists leg,
    nth_error CE_LEGS 1 = Some leg
    /\ LegValue.ratio (LegValue.mk 60 60 2 100 20) = LegConfig.ratio leg
    /\ is_finite (LegValue.firstAsk (LegValue.mk 60 60 2 100 20)) = true
    /\ is_finite (LegValue.middleBid (LegValue.mk 60 60 2 100 20)) = true
    /\ LegValue.rate (LegValue.mk 60 60 2 100 20)
       = LegValue.firstAsk (LegValue.mk 60 60 2 100 20)
         - LegValue.ratio (LegValue.mk 60 60 2 100 20)
           * LegValue.middleBid (LegValue.mk 60 60 2 100 20)
    /\ LegValue.value (LegValue.mk 60 60 2 100 20)
       = calculateValuePercent (LegValue.rate (LegValue.mk 60 60 2 100 20))
           (LegValue.firstAsk (LegValue.mk 60 60 2 100 20)).
Proof.
  apply (multi_table_leg_values sample_feed 24010 CALL
           (multi_row
              (fold_left (fun m item => strike_map_set (strike_price item) item m)
                 (transformOptionDataForButterfly sample_feed) [])
              CALL CE_LEGS 24000 24000)
           1%nat (LegValue.mk 60 60 2 100 20)).
  - vm_compute. left. reflexivity.
  - vm_compute. right. left. reflexivity.
Defined.

(** When the multi-leg table has rows, its at-the-money strike is the one
    the ranker works with; its rows are the positive strikes of the
    normalized chain, in ascending order for calls and descending order for
    puts, and a row is flagged [isATM] exactly when its strike equals that
    at-the-money strike. *)
Theorem multi_table_rows :
  forall optionData spotPrice type,
    fst (multiTable_memo optionData spotPrice type) <> [] ->
    let rows := fst (multiTable_memo optionData spotPrice type) in
    let atm := snd (multiTable_memo optionData spotPrice type) in
    atmStrike_of optionData spotPrice = Some atm
    /\ Sorted (display_order type) (map MultiRow.strike rows)
    /\ Permutation (map MultiRow.strike rows)
         (positive_strikes (transformOptionDataForButterfly optionData))
    /\ forall row, In row rows -> MultiRow.isATM row = (MultiRow.strike row =? atm).
Proof.
  intros od spot type. unfold multiTable_memo, atmStrike_of.
  destruct od as [|r0 od0]; [intros H; now contradiction H|].
  set (od := r0 :: od0).
  destruct (JS.truthy spot); cbn [negb fst snd]; [|intros H; now contradiction H].
  set (strikes := JS.sort ascending
                    (positive_strikes (transformOptionDataForButterfly od))).
  set (m := fold_left _ _ []).
  destruct strikes as [|first rest] eqn:E; [intros H; now contradiction H|].
  intros _. cbv zeta.
  assert (MS : forall legs atm l,
             map MultiRow.strike (map (multi_row m type legs atm) l) = l).
  { intros. rewrite map_map. apply map_id. }
  rewrite MS.
  assert (N : forall x, In x (first :: rest) -> is_nan x = false).
  { intros x Hx. rewrite <- E in Hx. unfold strikes in Hx.
    apply in_sort, in_positive_strikes in Hx. destruct Hx as [Hx _].
    now apply FloatFacts.ltb_not_nan in Hx. }
  split; [reflexivity | split; [|split]].
  - apply sort_sorted_all. intros x y Hx Hy.
    apply display_order_placed; auto.
  - eapply perm_trans; [apply Permutation_sym, sort_perm|].
    rewrite <- E. apply Permutation_sym, sort_perm.
  - intros row Hrow. apply in_map_iff in Hrow.
    destruct Hrow as (s & <- & _). reflexivity.
Qed.

Lemma multi_table_rows_witness :
  atmStrike_of sample_feed 24010 = Some (snd (multiTable_memo sample_feed 24010 CALL)).
Proof.
  apply (multi_table_rows sample_feed 24010 CALL). vm_compute. discriminate.
Defined.


(** ** The matrix and the ranker side by side *)

(** For calls the chain matrix flags the at-the-money strike of the ranker;
    for puts the matrix searches the strikes in descending order, and on a
    tie it flags another strike than the ranker picks. *)
Theorem chain_and_ranker_atm :
  forall rawOptionData spotPrice gaps atmStrike d,
    atmStrike_of rawOptionData spotPrice = Some atmStrike ->
    In d (calculateButterflyChain rawOptionData spotPrice CALL gaps) ->
    ButterflyData.isATM d = (ButterflyData.strike d =? atmStrike)
    /\ atmStrike_of tie_chain 24050 = Some 24000
    /\ map (fun d => (ButterflyData.strike d, ButterflyData.isATM d))
         (calculateButterflyChain tie_chain 24050 PUT default_gaps)
       = [(24100, true); (24000, false)].
Proof.
  intros raw spot gaps atm d A Hd.
  split; [|split; vm_compute; reflexivity].
  unfold atmStrike_of in A.
  destruct (calculateButterflyChain_rows raw spot CALL gaps)
    as [[E _] | (first & rest & E & R)].
  - rewrite E in Hd. destruct Hd.
  - cbn [chain_compare] in E. rewrite E in A. injection A as <-.
    rewrite R in Hd. apply in_map_iff in Hd.
    destruct Hd as (s & <- & _). reflexivity.
Qed.

Lemma chain_and_ranker_atm_witness :
  ButterflyData.isATM (ButterflyData.mk 24050 55 54 56 false
                         [(50, GapCell.mk 21 37.5)])
  = (24050 =? 24000)
  /\ atmStrike_of tie_chain 24050 = Some 24000
  /\ map (fun d => (ButterflyData.strike d, ButterflyData.isATM d))
       (calculateButterflyChain tie_chain 24050 PUT default_gaps)
     = [(24100, true); (24000, false)].
Proof.
  apply (chain_and_ranker_atm sample_feed 24010 default_gaps 24000
           (ButterflyData.mk 24050 55 54 56 false [(50, GapCell.mk 21 37.5)])).
  - reflexivity.
  - vm_compute. right. left. reflexivity.
Defined.

Lemma set_gap_keeps entry gap cell gapData :
  In entry gapData -> JS.same_value_zero (fst entry) gap = false ->
  In entry (set_gap gap cell gapData).
Proof.
  induction gapData as [|[g c] rest IH]; simpl; [tauto|].
  intros [<-|H] K; simpl in *.
  - rewrite K. now left.
  - destruct (JS.same_value_zero g gap); simpl; auto.
Qed.

Lemma set_gap_new gap cell gapData :
  Forall (fun e => JS.same_value_zero (fst e) gap = false) gapData ->
  In (gap, cell) (set_gap gap cell gapData).
Proof.
  induction 1 as [|[g c] rest K _ IH]; simpl; auto.
  simpl in K. rewrite K. now right.
Qed.

Lemma set_gap_keys entry gap cell gapData :
  In entry (set_gap gap cell gapData) ->
  fst entry = gap \/ exists e, In e gapData /\ fst entry = fst e.
Proof.
  induction gapData as [|[g c] rest IH]; simpl.
  - intros [<-|[]]. now left.
  - destruct (JS.same_value_zero g gap); simpl.
    + intros [<-|H]; right; [exists (g, c) | exists entry]; auto.
    + intros [<-|H]; [right; exists (g, c); auto|].
      destruct (IH H) as [->|(e & He & ->)]; eauto.
Qed.

Lemma gap_step_keys optionData type strike gapData gap entry :
  In entry (gap_step optionData type strike gapData gap) ->
  fst entry = gap \/ exists e, In e gapData /\ fst entry = fst e.
Proof.
  unfold gap_step. destruct (legs type strike gap) as [[lo mi] up].
  destruct (calculateButterflyRate _ _ _ _ _) as [result|]; [|eauto].
  destruct (0 <? _); [apply set_gap_keys | eauto].
Qed.

Lemma gap_step_keeps optionData type strike gapData gap entry :
  In entry gapData -> JS.same_value_zero (fst entry) gap = false ->
  In entry (gap_step optionData type strike gapData gap).
Proof.
  intros H K. unfold gap_step. destruct (legs type strike gap) as [[lo mi] up].
  destruct (calculateButterflyRate _ _ _ _ _) as [result|]; auto.
  destruct (0 <? _); auto. now apply set_gap_keeps.
Qed.

(** A cell survives the steps for gaps with other keys. *)
Lemma fold_gap_step_keeps optionData type strike gaps : forall gapData entry,
  In entry gapData ->
  Forall (fun g => JS.same_value_zero (fst entry) g = false) gaps ->
  In entry (fold_left (gap_step optionData type strike) gaps gapData).
Proof.
  induction gaps as [|g gaps IH]; intros gapData entry H F; simpl; auto.
  inversion F; subst. apply IH; auto. now apply gap_step_keeps.
Qed.

(** With distinct gap keys, a gap whose butterfly has a positive rate gets
    its cell. *)
Lemma fold_gap_step_sets optionData type strike gaps : forall gapData gap result,
  distinct_gaps gaps ->
  Forall (fun e => Forall (fun g => JS.same_value_zero (fst e) g = false) gaps)
         gapData ->
  In gap gaps ->
  (let '(lo, mi, up) := legs type strike gap in
   calculateButterflyRate lo mi up optionData type) = Some result ->
  (0 <? ButterflyResult.rate result) = true ->
  In (gap, GapCell.mk (ButterflyResult.rate result)
             (calculateValuePercent (ButterflyResult.rate result)
                (ButterflyResult.firstLegPremium result)))
     (fold_left (gap_step optionData type strike) gaps gapData).
Proof.
  induction gaps as [|g gaps IH]; intros gapData gap result D Fresh Hin C P;
    [destruct Hin|].
  inversion D as [|? ? Dg Dgaps]; subst. simpl.
  destruct Hin as [->|Hin].
  - apply fold_gap_step_keeps.
    + unfold gap_step. destruct (legs type strike gap) as [[lo mi] up].
      rewrite C, P. apply set_gap_new.
      eapply Forall_impl; [|exact Fresh]. intros e He. now inversion He.
    + exact Dg.
  - apply IH; auto.
    apply Forall_forall. intros e He.
    destruct (gap_step_keys _ _ _ _ _ _ He) as [->|(e' & He' & ->)]; auto.
    rewrite Forall_forall in Fresh. specialize (Fresh e' He').
    now inversion Fresh.
Qed.

Lemma default_gaps_distinct : distinct_gaps default_gaps.
Proof. repeat constructor. Qed.

(** Every strategy that the ranker lists is shown in the chain matrix of its
    side: the row of its base strike has, under its gap, a cell with the
    strategy's rate and value percentage. *)
Theorem listed_strategy_in_matrix :
  forall rawOptionData spotPrice maxValuePercent s,
    In s (findBestStrategies rawOptionData spotPrice maxValuePercent) ->
    exists d,
      In d (calculateButterflyChain rawOptionData spotPrice
              (ButterflyStrategy.type s) default_gaps)
      /\ ButterflyData.strike d = base_strike s
      /\ In (ButterflyStrategy.gap s,
             GapCell.mk (ButterflyStrategy.butterflyRate s)
                        (ButterflyStrategy.valuePercent s))
            (ButterflyData.gaps d).
Proof.
  intros raw spot mvp s H.
  apply findBestStrategies_inv in H.
  destruct H as (first & rest & E & _ & H).
  apply in_candidates_gap in H. destruct H as (type & gap & b & Hg & Hb & H).
  assert (Hpos : In b (positive_strikes (transformOptionDataForButterfly raw)))
    by now apply (ranker_strikes raw spot first rest E).
  apply candidate_inv in H.
  destruct (legs type b gap) as [[lo mi] up] eqn:L.
  destruct H as (result & C & _ & _ & _ & _ & P & _ & -> & _).
  cbn [ButterflyStrategy.type ButterflyStrategy.gap
       ButterflyStrategy.butterflyRate ButterflyStrategy.valuePercent].
  destruct (calculateButterflyChain_rows raw spot type default_gaps)
    as [[_ E0] | (first' & rest' & E' & R)].
  { rewrite E0 in Hpos. destruct Hpos. }
  exists (chain_row (transformOptionDataForButterfly raw) type default_gaps
            (atm_of spot first' rest') b).
  split; [|split].
  - rewrite R. apply in_map. rewrite <- E'. apply (proj2 (in_sort _ b _)). exact Hpos.
  - unfold base_strike, lower_strike, upper_strike. cbn.
    destruct type; cbn in L; injection L as L1 L2 L3; congruence.
  - cbn [chain_row ButterflyData.gaps].
    apply fold_gap_step_sets; auto using default_gaps_distinct.
    rewrite L. exact C.
Qed.

Lemma listed_strategy_in_matrix_witness :
  exists d,
    In d (calculateButterflyChain sample_feed 24010
            (ButterflyStrategy.type sample_strategy) default_gaps)
    /\ ButterflyData.strike d = base_strike sample_strategy
    /\ In (ButterflyStrategy.gap sample_strategy,
           GapCell.mk (ButterflyStrategy.butterflyRate sample_strategy)
                      (ButterflyStrategy.valuePercent sample_strategy))
          (ButterflyData.gaps d).
Proof.
  apply (listed_strategy_in_matrix sample_feed 24010 100 sample_strategy).
  vm_compute. left. reflexivity.
Defined.


(** ** No strike of the feed is lost *)

Lemma map_has_keys strike : forall strikeMap strikeMap',
  map strike_price strikeMap = map strike_price strikeMap' ->
  map_has strike strikeMap = map_has strike strikeMap'.
Proof.
  induction strikeMap as [|e m IH]; intros [|e' m'] E; try discriminate; auto.
  simpl in *. injection E as E1 E2. rewrite E1. f_equal. now apply IH.
Qed.

Lemma add_row_has_mono strike strikeMap item :
  map_has strike strikeMap = true ->
  map_has strike (add_row strikeMap item) = true.
Proof.
  intros H.
  destruct (add_row_keys strikeMap item) as [E | (s & _ & _ & _ & E)].
  - now rewrite (map_has_keys strike _ _ E).
  - rewrite (map_has_keys strike _ (strikeMap ++ [new_entry s])).
    + unfold map_has in *. rewrite existsb_app, H. reflexivity.
    + rewrite E, map_app. reflexivity.
Qed.

Lemma add_row_has strikeMap item strike :
  strike_price item = JS.Num strike -> is_nan strike = false ->
  map_has strike (add_row strikeMap item) = true.
Proof.
  intros S N. unfold add_row. rewrite S, (number_not_skipped _ N).
  set (f := fun entry => merge_row entry item).
  assert (K : forall m, map strike_price (map_update strike f m)
                        = map strike_price m).
  { intros m. apply map_update_keys. intros e. apply strike_price_merge_row. }
  destruct (map_has strike strikeMap) eqn:H.
  - now rewrite (map_has_keys strike _ _ (K strikeMap)).
  - rewrite (map_has_keys strike _ _ (K _)).
    unfold map_has. rewrite existsb_app. simpl.
    rewrite same_value_zero_refl. now rewrite orb_true_r.
Qed.

Lemma fold_add_row_has strike rows : forall strikeMap,
  map_has strike strikeMap = true
  \/ (is_nan strike = false
      /\ exists r, In r rows /\ strike_price r = JS.Num strike) ->
  map_has strike (fold_left add_row rows strikeMap) = true.
Proof.
  induction rows as [|item rows IH]; intros m H; simpl.
  - destruct H as [H | (_ & r & [] & _)]. exact H.
  - apply IH. destruct H as [H | (N & r & [<- | Hr] & S)].
    + left. now apply add_row_has_mono.
    + left. now apply add_row_has.
    + right. eauto.
Qed.

(** Every option row of the feed whose strike is a number finds its strike in
    the normalized chain, whichever of the two paths the normalizer takes. *)
Theorem normalizer_keeps_strikes :
  forall rawData r strike,
    In r rawData ->
    not_index_row r = true ->
    strike_price r = JS.Num strike ->
    is_nan strike = false ->
    has_strike (transformOptionDataForButterfly rawData) strike = true.
Proof.
  intros raw r k Hr I S N.
  unfold has_strike. apply existsb_exists.
  unfold transformOptionDataForButterfly.
  destruct (already_transformed raw).
  - exists r. split; [apply filter_In; auto|].
    rewrite S. simpl. now apply eqb_refl.
  - assert (H : map_has k (fold_left add_row (filter not_index_row raw) [])
                = true).
    { apply fold_add_row_has. right. split; [exact N|].
      exists r. split; [apply filter_In; auto | exact S]. }
    apply existsb_exists in H. destruct H as (e & He & K).
    exists e. split; [apply (proj2 (in_sort _ e _)); exact He|].
    assert (Inv : keys_inv (map strike_price
                     (fold_left add_row (filter not_index_row raw) []))).
    { apply fold_add_row_keys_inv. split; constructor. }
    destruct Inv as [Num _]. rewrite Forall_forall in Num.
    destruct (Num (strike_price e) (in_map _ _ _ He)) as (x & Ex & Nx).
    rewrite Ex in *. simpl in *.
    unfold JS.same_value_zero in K. rewrite Nx in K.
    now rewrite andb_false_l, orb_false_r in K.
Qed.

Lemma normalizer_keeps_strikes_witness :
  has_strike (transformOptionDataForButterfly sample_feed) 24100 = true.
Proof.
  apply (normalizer_keeps_strikes sample_feed
           (feed_row 24100 "CE" (JS.Num 20) (JS.Num 21) (JS.Num 20.5))).
  - vm_compute. tauto.
  - reflexivity.
  - reflexivity.
  - reflexivity.
Defined.


(** ** The two colour scales *)

Lemma not_between lo v hi :
  (lo <=? hi) = false -> (v <=? hi) = true -> (lo <=? v) = false.
Proof.
  intros F H. destruct (lo <=? v) eqn:C; [|reflexivity].
  now rewrite (FloatFacts.leb_trans lo v hi C H) in F.
Qed.

(** The calculation module and the tables colour a value percentage in
    opposite directions: a positive value up to 15 is emerald for the module
    and red in the tables, a value of 90 or more is emerald in the tables and
    red for the module. *)
Theorem colour_scales_opposed :
  forall value,
    ((0 <? value) = true -> (value <=? 15) = true ->
     getValueColorClass value = "text-emerald-500 bg-emerald-500/10"%string
     /\ Tables.getValueColorClass value
        = "bg-red-500/20 text-red-400"%string)
    /\ ((90 <=? value) = true ->
        Tables.getValueColorClass value
        = "bg-emerald-500/20 text-emerald-400"%string
        /\ getValueColorClass value = "text-red-500 bg-red-500/10"%string).
Proof.
  intros v. split.
  - intros P H.
    unfold getValueColorClass, Tables.getValueColorClass.
    rewrite H, P.
    rewrite (not_between 90 v 15), (not_between 70 v 15),
      (not_between 50 v 15), (not_between 30 v 15); auto.
  - intros H.
    unfold getValueColorClass, Tables.getValueColorClass.
    rewrite H.
    destruct (v <=? 15) eqn:A.
    { now rewrite (not_between 90 v 15) in H. }
    destruct (v <=? 20) eqn:B.
    { now rewrite (not_between 90 v 20) in H. }
    auto.
Qed.

Lemma colour_scales_opposed_witness :
  getValueColorClass 13 = "text-emerald-500 bg-emerald-500/10"%string
  /\ Tables.getValueColorClass 13
     = "bg-red-500/20 text-red-400"%string.
Proof.
  apply (proj1 (colour_scales_opposed 13)); reflexivity.
Defined.
